(** * Espruino software serial port: [jswrap_serial.c]

    A shallow embedding of the JavaScript [Serial] wrapper
    ([src/jswrap_serial.c]): the frame configuration step
    ([_jswrap_serial_getUsartInfo], [jswrap_serial_setup]), the software
    UART encoder ([_jswrap_serial_print_sw]) and the write dispatcher
    ([_jswrap_serial_print]).

    C integers are modelled as [Z] with their wrap-around written out;
    the calls into the rest of the interpreter (pin scheduler, console,
    exceptions, hardware USART) are recorded in a [World] of logs. *)

From Stdlib Require Import ZArith Lia List Bool Sorted.
From stdpp Require Import base option list sorting strings gmap.
Import ListNotations.

#[local] Open Scope Z_scope.

(** ** Machine integers *)

Module MachineInt.

(** Two's complement reading of the low [w] bits of [x]. *)
Definition wrap (w : Z) (x : Z) : Z :=
  (x + 2 ^ (w - 1)) mod 2 ^ w - 2 ^ (w - 1).

(** [int] is 32 bits wide, [JsSysTime] ([long long]) 64 bits. *)
Definition wrap32 : Z -> Z := wrap 32.
Definition wrap64 : Z -> Z := wrap 64.

(** [(unsigned char)x] *)
Definition to_uchar (x : Z) : Z := x mod 256.

(** [a << n] on [int].  C leaves a shift count of 32 or more (and a
    shift into the sign bit) undefined; here the mathematical result is
    wrapped to 32 bits. *)
Definition shl32 (a n : Z) : Z := wrap32 (Z.shiftl a n).

(** [a >> n] on [int]: arithmetic shift. *)
Definition shr32 (a n : Z) : Z := Z.shiftr a n.

Definition add32 (a b : Z) : Z := wrap32 (a + b).
Definition sub32 (a b : Z) : Z := wrap32 (a - b).

Definition add64 (a b : Z) : Z := wrap64 (a + b).
Definition mul64 (a b : Z) : Z := wrap64 (a * b).

Definition in_int64 (x : Z) : Prop := - 2 ^ 63 <= x < 2 ^ 63.
Definition in_int32 (x : Z) : Prop := - 2 ^ 31 <= x < 2 ^ 31.

End MachineInt.
Import MachineInt.

(** ** Interpreter values *)

Set Warnings "-register-all".

(** The [JsVar] shapes the serial wrapper tells apart.  [JsUndefined] is
    the null [JsVar*]; an object is its list of named children, searched
    front to back. *)
Inductive JsVar : Type :=
| JsUndefined
| JsNull
| JsInt (n : Z)
| JsString (s : string)
| JsArray (items : list JsVar)
| JsObject (children : list (string * JsVar)).

Definition jsvIsUndefined (v : JsVar) : bool :=
  match v with JsUndefined => true | _ => false end.

Definition jsvIsNull (v : JsVar) : bool :=
  match v with JsNull => true | _ => false end.

Definition jsvIsInt (v : JsVar) : bool :=
  match v with JsInt _ => true | _ => false end.

Definition jsvIsString (v : JsVar) : bool :=
  match v with JsString _ => true | _ => false end.

Definition jsvIsObject (v : JsVar) : bool :=
  match v with JsObject _ => true | _ => false end.

Definition jsvIsStringEqual (v : JsVar) (lit : string) : bool :=
  match v with JsString s => String.eqb s lit | _ => false end.

Fixpoint findChild (name : string) (kvs : list (string * JsVar)) : JsVar :=
  match kvs with
  | [] => JsUndefined
  | (k, v) :: rest => if String.eqb k name then v else findChild name rest
  end.

(** [jsvObjectGetChild(obj, name, 0)]: the child, or the null pointer. *)
Definition jsvObjectGetChild (obj : JsVar) (name : string) : JsVar :=
  match obj with
  | JsObject kvs => findChild name kvs
  | _ => JsUndefined
  end.

(** ** Devices, pins and the USART description *)

(** [Pin] is an [unsigned char]. *)
Definition Pin : Type := Z.

(** [JsSysTime] is a 64 bit signed tick count. *)
Definition JsSysTime : Type := Z.

Record JshUSARTInfo : Type := mkUSARTInfo {
  baudRate : Z;
  pinRX : Pin;
  pinTX : Pin;
  pinCK : Pin;
  bytesize : Z;
  parity : Z;
  stopbits : Z;
  xOnXOff : bool
}.

Definition set_baudRate (b : Z) (i : JshUSARTInfo) : JshUSARTInfo :=
  mkUSARTInfo b (pinRX i) (pinTX i) (pinCK i) (bytesize i) (parity i)
              (stopbits i) (xOnXOff i).
Definition set_pins (rx tx ck : Pin) (i : JshUSARTInfo) : JshUSARTInfo :=
  mkUSARTInfo (baudRate i) rx tx ck (bytesize i) (parity i)
              (stopbits i) (xOnXOff i).
Definition set_bytesize (n : Z) (i : JshUSARTInfo) : JshUSARTInfo :=
  mkUSARTInfo (baudRate i) (pinRX i) (pinTX i) (pinCK i) n (parity i)
              (stopbits i) (xOnXOff i).
Definition set_parity (n : Z) (i : JshUSARTInfo) : JshUSARTInfo :=
  mkUSARTInfo (baudRate i) (pinRX i) (pinTX i) (pinCK i) (bytesize i) n
              (stopbits i) (xOnXOff i).
Definition set_stopbits (n : Z) (i : JshUSARTInfo) : JshUSARTInfo :=
  mkUSARTInfo (baudRate i) (pinRX i) (pinTX i) (pinCK i) (bytesize i)
              (parity i) n (xOnXOff i).
Definition set_xOnXOff (b : bool) (i : JshUSARTInfo) : JshUSARTInfo :=
  mkUSARTInfo (baudRate i) (pinRX i) (pinTX i) (pinCK i) (bytesize i)
              (parity i) (stopbits i) b.

(** What the headers and the hardware layer provide and [src/] does not
    hold: the device enumeration with [DEVICE_IS_USART], the pin helpers,
    the defaults written by [jshUSARTInitInfo], the names under which the
    configuration is kept on the device object, the integer reading of a
    value that is not an integer, [jsvAsString], and the tick conversion
    [jshGetTimeFromMilliseconds].  The conversion takes a floating point
    argument; the two ways it is called are taken as they are:
    [bitTime b] stands for
    [jshGetTimeFromMilliseconds(1000/(JsVarFloat)b)] and [leadTime] for
    [jshGetTimeFromMilliseconds(1000)]. *)
Class Platform : Type := {
  IOEventFlags : Type;
  DEVICE_IS_USART : IOEventFlags -> bool;
  LINUX : bool;
  jshGetPinFromVar : JsVar -> Pin;
  jshIsPinValid : Pin -> bool;
  jshUSARTInitInfo : JshUSARTInfo;
  USART_BAUDRATE_NAME : string;
  DEVICE_OPTIONS_NAME : string;
  jsvCoerceInteger : JsVar -> Z;
  jsvAsString : JsVar -> JsVar;
  bitTime : Z -> JsSysTime;
  leadTime : JsSysTime
}.

(** ** Effects *)

(** The three errors the configuration step raises with
    [jsExceptionHere(JSET_ERROR, ...)]:
    "Invalid baud rate specified", "Invalid parity %d" and
    "Invalid flow control: %q". *)
Inductive SerialError : Type :=
| InvalidBaudRate
| InvalidParity (p : Z)
| InvalidFlowControl (v : JsVar).

(** One call [jstPinOutputAtTime(time, &pin, 1, value)]. *)
Record EdgeEvent : Type := mkEdge {
  ev_time : JsSysTime;
  ev_pin : Pin;
  ev_level : Z
}.

(** One call [jsiConsolePrintf(fmt, args...)]. *)
Record ConsoleLine : Type := mkConsoleLine {
  cl_format : string;
  cl_args : list Z
}.

Section Model.
Context `{P : Platform}.

(** The interpreter state the wrapper touches: the clock it reads and
    one log per primitive it calls, oldest entry first. *)
Record World : Type := mkWorld {
  sysTime : JsSysTime;
  exceptions : list SerialError;
  edges : list EdgeEvent;
  pinOutputs : list (Pin * Z);
  console : list ConsoleLine;
  transmitted : list (IOEventFlags * Z);
  usartSetups : list (IOEventFlags * JshUSARTInfo)
}.

Definition jsExceptionHere (e : SerialError) (w : World) : World :=
  mkWorld (sysTime w) (exceptions w ++ [e]) (edges w) (pinOutputs w)
          (console w) (transmitted w) (usartSetups w).

Definition jstPinOutputAtTime (t : JsSysTime) (pin : Pin) (v : Z)
    (w : World) : World :=
  mkWorld (sysTime w) (exceptions w) (edges w ++ [mkEdge t pin v])
          (pinOutputs w) (console w) (transmitted w) (usartSetups w).

Definition jshPinOutput (pin : Pin) (v : Z) (w : World) : World :=
  mkWorld (sysTime w) (exceptions w) (edges w) (pinOutputs w ++ [(pin, v)])
          (console w) (transmitted w) (usartSetups w).

Definition jsiConsolePrintf (fmt : string) (args : list Z)
    (w : World) : World :=
  mkWorld (sysTime w) (exceptions w) (edges w) (pinOutputs w)
          (console w ++ [mkConsoleLine fmt args]) (transmitted w)
          (usartSetups w).

Definition jshTransmit (device : IOEventFlags) (data : Z)
    (w : World) : World :=
  mkWorld (sysTime w) (exceptions w) (edges w) (pinOutputs w) (console w)
          (transmitted w ++ [(device, data)]) (usartSetups w).

Definition jshUSARTSetup (device : IOEventFlags) (inf : JshUSARTInfo)
    (w : World) : World :=
  mkWorld (sysTime w) (exceptions w) (edges w) (pinOutputs w) (console w)
          (transmitted w) (usartSetups w ++ [(device, inf)]).

Definition jshGetSystemTime (w : World) : JsSysTime := sysTime w.

(** [(int)jsvGetInteger(v)] *)
Definition jsvGetInteger (v : JsVar) : Z :=
  match v with
  | JsInt n => wrap32 n
  | _ => wrap32 (jsvCoerceInteger v)
  end.

(** ** Frame configuration *)

(** The [parity] entry of the options, lines 175-185. *)
Definition parityOfVar (v : JsVar) : Z :=
  if jsvIsString v then
    if jsvIsStringEqual v "o" || jsvIsStringEqual v "odd" then 1
    else if jsvIsStringEqual v "e" || jsvIsStringEqual v "even" then 2
    else 0
  else if jsvIsInt v then to_uchar (jsvGetInteger v)
  else 0.

(** The options part of [_jswrap_serial_getUsartInfo], lines 165-202,
    entered when [options] is an object. *)
Definition getUsartInfo_options (options : JsVar) (inf : JshUSARTInfo)
    (w : World) : JshUSARTInfo * World :=
  let inf := set_pins (jshGetPinFromVar (jsvObjectGetChild options "rx"))
                      (jshGetPinFromVar (jsvObjectGetChild options "tx"))
                      (jshGetPinFromVar (jsvObjectGetChild options "ck"))
                      inf in
  let v := jsvObjectGetChild options "bytesize" in
  let inf := if jsvIsInt v then set_bytesize (to_uchar (jsvGetInteger v)) inf
             else inf in
  let inf := set_parity (parityOfVar (jsvObjectGetChild options "parity"))
                        inf in
  if 2 <? parity inf then
    (inf, jsExceptionHere (InvalidParity (parity inf)) w)
  else
    let v := jsvObjectGetChild options "stopbits" in
    let inf := if jsvIsInt v
               then set_stopbits (to_uchar (jsvGetInteger v)) inf
               else inf in
    let v := jsvObjectGetChild options "flow" in
    if jsvIsUndefined v || jsvIsNull v || jsvIsStringEqual v "none" then
      (set_xOnXOff false inf, w)
    else if jsvIsStringEqual v "xon" then
      (set_xOnXOff true inf, w)
    else
      (inf, jsExceptionHere (InvalidFlowControl v) w).

Definition _jswrap_serial_getUsartInfo (baud options : JsVar)
    (w : World) : JshUSARTInfo * World :=
  let inf := jshUSARTInitInfo in
  let '(inf, w) :=
    if negb (jsvIsUndefined baud) then
      let b := jsvGetInteger baud in
      if (b <=? 100) || (10000000 <? b)
      then (inf, jsExceptionHere InvalidBaudRate w)
      else (set_baudRate b inf, w)
    else (inf, w) in
  if jsvIsObject options then getUsartInfo_options options inf w
  else (inf, w).

(** The device object a method is called on ([JsVar *parent]): the
    device [jsiGetDeviceFromClass] finds for it and its named children.
    The interpreter keeps a child by reference; nothing modelled here
    changes a value after it is stored, so a child holds the value. *)
Record SerialObject : Type := mkSerialObject {
  device : IOEventFlags;
  children : gmap string JsVar
}.

Definition jsiGetDeviceFromClass (parent : SerialObject) : IOEventFlags :=
  device parent.

(** [jsvObjectGetChild(parent, name, 0)] *)
Definition getChild (parent : SerialObject) (name : string) : JsVar :=
  default JsUndefined (children parent !! name).

(** [jsvObjectSetChild(parent, name, v)] *)
Definition setChild (parent : SerialObject) (name : string) (v : JsVar)
    : SerialObject :=
  mkSerialObject (device parent) (<[name := v]> (children parent)).

(** [jsvRemoveNamedChild(parent, name)] *)
Definition removeNamedChild (parent : SerialObject) (name : string)
    : SerialObject :=
  mkSerialObject (device parent) (delete name (children parent)).

Definition jswrap_serial_setup (parent : SerialObject) (baud options : JsVar)
    (w : World) : SerialObject * World :=
  let device := jsiGetDeviceFromClass parent in
  let '(inf, w) := _jswrap_serial_getUsartInfo baud options w in
  let '(parent, w) :=
    if DEVICE_IS_USART device then
      let parent :=
        if LINUX && jsvIsObject options
        then setChild parent "path" (jsvObjectGetChild options "path")
        else parent in
      (parent, jshUSARTSetup device inf w)
    else (parent, w) in
  (* Set baud rate in object, so we can initialise it on startup *)
  let parent := setChild parent USART_BAUDRATE_NAME (JsInt (baudRate inf)) in
  (* Do the same for options *)
  let parent :=
    if negb (jsvIsUndefined options)
    then setChild parent DEVICE_OPTIONS_NAME options
    else removeNamedChild parent DEVICE_OPTIONS_NAME in
  (parent, w).

(** ** The two sinks *)

Definition _jswrap_serial_print_hw (data : Z) (device : IOEventFlags)
    (w : World) : World :=
  jshTransmit device (to_uchar data) w.

Record SWSerialStruct : Type := mkSWSerial {
  inf : JshUSARTInfo;
  time : JsSysTime;
  bitLength : JsSysTime
}.

(** Lines 243-249: the composite pattern and its length, computed on
    [int] from the description as line 243 leaves it. *)
Definition frameBits (data : Z) (i : JshUSARTInfo) : Z * Z :=
  let bitData := shl32 (Z.land data (sub32 (shl32 1 (bytesize i)) 1)) 1 in
  let bitCount := add32 1 (bytesize i) in
  let bitData :=
    Z.lor bitData (shl32 (sub32 (shl32 1 (stopbits i)) 1) bitCount) in
  let bitCount := add32 bitCount (stopbits i) in
  (bitData, bitCount).

(** The locals of the scan loop together with the cursor [s->time]. *)
Record Scan : Type := mkScan {
  sc_bitData : Z;
  sc_bVal : Z;
  sc_bCnt : Z;
  sc_time : JsSysTime;
  sc_world : World
}.

(** One pass through the body of [while (bitCount--)], lines 255-263. *)
Definition scanStep (len : JsSysTime) (pin : Pin) (st : Scan) : Scan :=
  let v := Z.land (sc_bitData st) 1 in
  let bitData := shr32 (sc_bitData st) 1 in
  if negb (sc_bCnt st =? 0) && negb (sc_bVal st =? v) then
    let t := add64 (sc_time st) (mul64 len (sc_bCnt st)) in
    mkScan bitData v (add32 0 1) t
           (jstPinOutputAtTime t pin (sc_bVal st) (sc_world st))
  else
    mkScan bitData v (add32 (sc_bCnt st) 1) (sc_time st) (sc_world st).

(** [n] passes of the loop.  [bitCount] is [1 + 8 + stopbits] with
    [stopbits] an [unsigned char], so it is positive and the loop body
    runs [bitCount] times. *)
Fixpoint scanLoop (n : nat) (len : JsSysTime) (pin : Pin) (st : Scan)
    : Scan :=
  match n with
  | O => st
  | S n' => scanLoop n' len pin (scanStep len pin st)
  end.

(** The format string of line 251; [\n] stands for a line feed.  The
    format names two integers and the call passes one. *)
Definition debugFormat : string := "\n%d %d\n".

Definition _jswrap_serial_print_sw (data : Z) (s : SWSerialStruct)
    (w : World) : SWSerialStruct * World :=
  (* Start bit and data, LSB first *)
  let i := set_bytesize 8 (inf s) in
  let '(bitData, bitCount) := frameBits data i in
  let w := jsiConsolePrintf debugFormat [wrap32 (bitLength s)] w in
  (* now scan out *)
  let st := scanLoop (Z.to_nat bitCount) (bitLength s) (pinTX i)
                     (mkScan bitData (-1) 0 (time s) w) in
  let t := add64 (sc_time st) (mul64 (sc_bCnt st) (bitLength s)) in
  (mkSWSerial i t (bitLength s),
   jstPinOutputAtTime t (pinTX i) (sc_bVal st) (sc_world st)).

(** ** The byte source *)

Definition charCode (c : Ascii.ascii) : Z := Z.of_nat (Ascii.nat_of_ascii c).

(** Modelled from the spec: [jsvIterateCallback] is not under [src/].
    Section 4.2 has it turn an integer, a text value, an ordered sequence
    of these, or a wrapper carrying a value and a repeat count (written
    [{data: ..., count:#}] in the documentation of [write]) into the flat
    sequence of byte values (0-255), left to right and outer to inner;
    [iterateItems] is that sequence. *)
Fixpoint iterateItems (v : JsVar) : list Z :=
  match v with
  | JsUndefined | JsNull => []
  | JsInt n => [to_uchar n]
  | JsString s => map charCode (String.list_ascii_of_string s)
  | JsArray items =>
      (fix each (l : list JsVar) : list Z :=
         match l with
         | [] => []
         | x :: rest => iterateItems x ++ each rest
         end) items
  | JsObject kvs =>
      let count :=
        match findChild "count" kvs with
        | JsInt n => Z.to_nat n
        | _ => O
        end in
      let once :=
        (fix data (l : list (string * JsVar)) : list Z :=
           match l with
           | [] => []
           | (k, x) :: rest =>
               if String.eqb k "data" then iterateItems x else data rest
           end) kvs in
      concat (repeat once count)
  end.

(** The callback and its data, as [_jswrap_serial_print] picks them. *)
Inductive Sink : Type :=
| HardwareSink (device : IOEventFlags)
| SoftwareSink (s : SWSerialStruct).

(** [cb(item, cbdata)] *)
Definition callSink (item : Z) (k : Sink) (w : World) : Sink * World :=
  match k with
  | HardwareSink d => (k, _jswrap_serial_print_hw item d w)
  | SoftwareSink s =>
      let '(s, w) := _jswrap_serial_print_sw item s w in (SoftwareSink s, w)
  end.

Fixpoint feedSink (items : list Z) (k : Sink) (w : World) : Sink * World :=
  match items with
  | [] => (k, w)
  | x :: rest => let '(k, w) := callSink x k w in feedSink rest k w
  end.

(** [jsvIterateCallback(arg, cb, cbdata)] *)
Definition jsvIterateCallback (arg : JsVar) (k : Sink) (w : World)
    : Sink * World :=
  feedSink (iterateItems arg) k w.

(** Lines 293-302, once the sink is chosen. *)
Definition printWith (arg : JsVar) (isPrint newLine : bool) (k : Sink)
    (w : World) : Sink * World :=
  let arg := if isPrint then jsvAsString arg else arg in
  let '(k, w) := jsvIterateCallback arg k w in
  let '(k, w) :=
    if newLine then
      let '(k, w) := callSink 13 k w in callSink 10 k w
    else (k, w) in
  match k with
  | SoftwareSink s => (k, jstPinOutputAtTime (time s) (pinTX (inf s)) 1 w)
  | HardwareSink _ => (k, w)
  end.

(** The software sink of lines 286-290 for a description [i]. *)
Definition softwareSink (i : JshUSARTInfo) (w : World) : SWSerialStruct :=
  mkSWSerial i (add64 (jshGetSystemTime w) leadTime) (bitTime (baudRate i)).

(** The result holds the sink as the call leaves it, [None] when the
    call returns at line 285. *)
Definition _jswrap_serial_print (parent : SerialObject) (arg : JsVar)
    (isPrint newLine : bool) (w : World) : option Sink * World :=
  let device := jsiGetDeviceFromClass parent in
  if DEVICE_IS_USART device then
    let '(k, w) := printWith arg isPrint newLine (HardwareSink device) w in
    (Some k, w)
  else
    let baud := getChild parent USART_BAUDRATE_NAME in
    let options := getChild parent DEVICE_OPTIONS_NAME in
    let '(i, w) := _jswrap_serial_getUsartInfo baud options w in
    if negb (jshIsPinValid (pinTX i)) then (None, w) (* not set up! *)
    else
      let w := jshPinOutput (pinTX i) 1 w in
      let '(k, w) :=
        printWith arg isPrint newLine (SoftwareSink (softwareSink i w)) w in
      (Some k, w).

Definition jswrap_serial_print (parent : SerialObject) (str : JsVar) :=
  _jswrap_serial_print parent str true false.
Definition jswrap_serial_println (parent : SerialObject) (str : JsVar) :=
  _jswrap_serial_print parent str true true.
Definition jswrap_serial_write (parent : SerialObject) (args : JsVar) :=
  _jswrap_serial_print parent args false false.

End Model.

(** ** The encoder read on bit offsets *)

(** The scan loop of [_jswrap_serial_print_sw] with the cursor counted in
    whole bit periods: the offset and level of every edge that [n] more
    passes and the trailing call after the loop emit, when the loop
    stands at offset [pos] with the locals [bitData], [bVal], [bCnt]. *)
Fixpoint runOffsets (n : nat) (bitData bVal bCnt pos : Z) : list (Z * Z) :=
  match n with
  | O => [(pos + bCnt, bVal)]
  | S n' =>
      let v := Z.land bitData 1 in
      if negb (bCnt =? 0) && negb (bVal =? v)
      then (pos + bCnt, bVal)
             :: runOffsets n' (Z.shiftr bitData 1) v 1 (pos + bCnt)
      else runOffsets n' (Z.shiftr bitData 1) v (bCnt + 1) pos
  end.

(** Offsets and levels of the edges of one byte. *)
Definition frameOffsets (data : Z) (i : JshUSARTInfo) (pos : Z)
    : list (Z * Z) :=
  let '(bitData, bitCount) := frameBits data (set_bytesize 8 i) in
  runOffsets (Z.to_nat bitCount) bitData (-1) 0 pos.

(** The number of bit periods one byte takes: [bitCount] of line 249
    with [bytesize] as line 243 sets it. *)
Definition totalBitCount (i : JshUSARTInfo) : Z := 1 + 8 + stopbits i.

(** Offsets and levels of the edges of a run of bytes sent back to back
    from offset [pos]. *)
Fixpoint callOffsets (items : list Z) (i : JshUSARTInfo) (pos : Z)
    : list (Z * Z) :=
  match items with
  | [] => []
  | x :: rest =>
      frameOffsets x i pos ++ callOffsets rest i (pos + totalBitCount i)
  end.

(** The edge at [k] bit periods of length [len] after [t0]. *)
Definition edgeAt (t0 len : JsSysTime) (pin : Pin) (e : Z * Z) : EdgeEvent :=
  mkEdge (wrap64 (t0 + len * fst e)) pin (snd e).

(** The same edge when no tick count leaves the 64 bit range. *)
Definition edgeExact (t0 len : JsSysTime) (pin : Pin) (e : Z * Z)
    : EdgeEvent :=
  mkEdge (t0 + len * fst e) pin (snd e).

(** ** The frame as section 4.4 words it *)

(** Bit [k] of the composite pattern of the specification: bit 0 is the
    start bit (logic 0), the next [bitWidth] bits are the value bits of
    the byte, least significant first, the next [stopBits] bits are 1. *)
Definition specFrameBit (bitWidth stopBits byte k : Z) : bool :=
  if k =? 0 then false
  else if k <=? bitWidth then Z.testbit byte (k - 1)
  else if k <=? bitWidth + stopBits then true
  else false.

Definition specBitCount (bitWidth stopBits : Z) : Z :=
  1 + bitWidth + stopBits.

Section Logs.
Context `{P : Platform}.

(** A world with [es] appended to the edge log and [cs] to the console. *)
Definition addLog (es : list EdgeEvent) (cs : list ConsoleLine) (w : World)
    : World :=
  mkWorld (sysTime w) (exceptions w) (edges w ++ es) (pinOutputs w)
          (console w ++ cs) (transmitted w) (usartSetups w).

(** A world with [errs] appended to the exceptions raised. *)
Definition addErrors (errs : list SerialError) (w : World) : World :=
  mkWorld (sysTime w) (exceptions w ++ errs) (edges w) (pinOutputs w)
          (console w) (transmitted w) (usartSetups w).

(** The line [_jswrap_serial_print_sw] prints for every byte. *)
Definition debugLine (s : SWSerialStruct) : ConsoleLine :=
  mkConsoleLine debugFormat [wrap32 (bitLength s)].

(** The cursor after [items] went through the software sink [s]. *)
Definition cursorAfter (items : list Z) (s : SWSerialStruct) (w : World)
    : JsSysTime :=
  match fst (feedSink items (SoftwareSink s) w) with
  | SoftwareSink s' => time s'
  | HardwareSink _ => time s
  end.

(** The items one call hands to its sink, lines 293-299. *)
Definition callItems (arg : JsVar) (isPrint newLine : bool) : list Z :=
  iterateItems (if isPrint then jsvAsString arg else arg)
    ++ (if newLine then [13; 10] else []).

(** The configuration a write reads back from the device object,
    lines 280-282. *)
Definition storedConfig (parent : SerialObject) (w : World)
    : JshUSARTInfo * World :=
  _jswrap_serial_getUsartInfo (getChild parent USART_BAUDRATE_NAME)
                              (getChild parent DEVICE_OPTIONS_NAME) w.

(** A world with [bytes] appended to the bytes handed to [jshTransmit]. *)
Definition addTransmitted (bytes : list (IOEventFlags * Z)) (w : World)
    : World :=
  mkWorld (sysTime w) (exceptions w) (edges w) (pinOutputs w) (console w)
          (transmitted w ++ bytes) (usartSetups w).

End Logs.

(** ** A concrete platform *)

(** A platform to run the model on: one software port and one hardware
    USART, ticks of a microsecond, pins 0 to 63 and [0xFF] for no pin,
    and the defaults of the documentation of [setup] (9600 baud, 8 data
    bits, no parity, 1 stop bit). *)
Module Reference.

Inductive Device : Type := EV_NONE | EV_SERIAL1.

Definition PIN_UNDEFINED : Pin := 255.

Definition platform : Platform := {|
  IOEventFlags := Device;
  DEVICE_IS_USART := fun d => match d with EV_SERIAL1 => true | _ => false end;
  LINUX := false;
  jshGetPinFromVar := fun v =>
    match v with JsInt n => to_uchar n | _ => PIN_UNDEFINED end;
  jshIsPinValid := fun p => (0 <=? p) && (p <? 64);
  jshUSARTInitInfo :=
    mkUSARTInfo 9600 PIN_UNDEFINED PIN_UNDEFINED PIN_UNDEFINED 8 0 1 false;
  USART_BAUDRATE_NAME := "baudrate";
  DEVICE_OPTIONS_NAME := "options";
  jsvCoerceInteger := fun _ => 0;
  jsvAsString := fun v => match v with JsString _ => v | _ => JsString "" end;
  bitTime := fun b => 1000000 / b;
  leadTime := 1000000
|}.

Definition world0 (now : JsSysTime) : @World platform :=
  @mkWorld platform now [] [] [] [] [] [].

(** A software port that was never set up. *)
Definition freshPort : @SerialObject platform :=
  @mkSerialObject platform EV_NONE ∅.

(** A software port after [setup(baud, {tx: 5})]. *)
Definition portOnPin5 (baud : Z) : @SerialObject platform :=
  @mkSerialObject platform EV_NONE
    (<["options" := JsObject [("tx", JsInt 5)]]>
       (<["baudrate" := JsInt baud]> ∅)).

(** A software port after
    [setup(9600, {tx: 5, parity: "odd", stopbits: 2})]. *)
Definition configuredPort : @SerialObject platform :=
  @mkSerialObject platform EV_NONE
    (<["options" := JsObject [("tx", JsInt 5); ("parity", JsString "odd");
                              ("stopbits", JsInt 2)]]>
       (<["baudrate" := JsInt 9600]> ∅)).

(** The hardware port [Serial1], never set up. *)
Definition serial1 : @SerialObject platform :=
  @mkSerialObject platform EV_SERIAL1 ∅.

(** The software sink of a 9600 baud, 8 bit, 1 stop bit port on pin 5,
    with the cursor at [t]. *)
Definition sink9600 (t : JsSysTime) : @SWSerialStruct :=
  mkSWSerial (mkUSARTInfo 9600 PIN_UNDEFINED 5 PIN_UNDEFINED 8 0 1 false)
             t (@bitTime platform 9600).

End Reference.

(** * Properties *)

(** Closed comparisons between numerals, by evaluation. *)
Ltac eval_bounds :=
  vm_compute; repeat split; first [discriminate | reflexivity].

(** ** Machine arithmetic *)

Section WrapFacts.

Lemma wrap_small (w x : Z) :
  0 < w -> - 2 ^ (w - 1) <= x < 2 ^ (w - 1) -> wrap w x = x.
Proof.
  intros Hw Hx. unfold wrap.
  assert (E : 2 ^ w = 2 * 2 ^ (w - 1)).
  { replace w with (Z.succ (w - 1)) at 1 by lia. apply Z.pow_succ_r. lia. }
  rewrite Z.mod_small; lia.
Qed.

Lemma wrap_range (w x : Z) :
  0 < w -> - 2 ^ (w - 1) <= wrap w x < 2 ^ (w - 1).
Proof.
  intros Hw. unfold wrap.
  assert (E : 2 ^ w = 2 * 2 ^ (w - 1)).
  { replace w with (Z.succ (w - 1)) at 1 by lia. apply Z.pow_succ_r. lia. }
  assert (0 < 2 ^ (w - 1)) by (apply Z.pow_pos_nonneg; lia).
  pose proof (Z.mod_pos_bound (x + 2 ^ (w - 1)) (2 ^ w) ltac:(lia)). lia.
Qed.

Lemma wrap_add_l (w a b : Z) : wrap w (wrap w a + b) = wrap w (a + b).
Proof.
  unfold wrap. f_equal.
  replace ((a + 2 ^ (w - 1)) mod 2 ^ w - 2 ^ (w - 1) + b + 2 ^ (w - 1))
    with ((a + 2 ^ (w - 1)) mod 2 ^ w + b) by lia.
  rewrite Zplus_mod_idemp_l. f_equal. lia.
Qed.

Lemma wrap_add_r (w a b : Z) : wrap w (a + wrap w b) = wrap w (a + b).
Proof. rewrite (Z.add_comm a), wrap_add_l. f_equal. lia. Qed.

Lemma wrap_idem (w a : Z) : wrap w (wrap w a) = wrap w a.
Proof.
  replace (wrap w a) with (wrap w a + 0) at 1 by lia.
  rewrite wrap_add_l. f_equal. lia.
Qed.

Lemma wrap32_small (x : Z) : in_int32 x -> wrap32 x = x.
Proof. unfold in_int32, wrap32. intros H. apply wrap_small; simpl; lia. Qed.

Lemma wrap64_small (x : Z) : in_int64 x -> wrap64 x = x.
Proof. unfold in_int64, wrap64. intros H. apply wrap_small; simpl; lia. Qed.

Lemma wrap64_range (x : Z) : in_int64 (wrap64 x).
Proof.
  unfold in_int64, wrap64.
  pose proof (wrap_range 64 x ltac:(lia)) as H. simpl in H. lia.
Qed.

Lemma mul64_comm (a b : Z) : mul64 a b = mul64 b a.
Proof. unfold mul64. f_equal. lia. Qed.

(** The cursor update [time + len * count] of lines 258 and 265, read
    modulo [2 ^ 64]. *)
Lemma cursor_step (t t0 len pos c : Z) :
  wrap64 t = wrap64 (t0 + len * pos) ->
  add64 t (mul64 len c) = wrap64 (t0 + len * (pos + c)).
Proof.
  intros Ht. unfold add64, mul64, wrap64 in *.
  rewrite wrap_add_r, <- wrap_add_l, Ht, wrap_add_l. f_equal. lia.
Qed.

End WrapFacts.

(** ** The scan loop and its offsets *)

Section EncoderFacts.
Context `{P : Platform}.

Lemma addLog_nil (w : World) : addLog [] [] w = w.
Proof. destruct w. unfold addLog. simpl. by rewrite !app_nil_r. Qed.

Lemma addLog_addLog (e1 e2 : list EdgeEvent) (c1 c2 : list ConsoleLine)
    (w : World) :
  addLog e2 c2 (addLog e1 c1 w) = addLog (e1 ++ e2) (c1 ++ c2) w.
Proof. unfold addLog. simpl. by rewrite !app_assoc. Qed.

Lemma pinOutputAtTime_addLog (t : JsSysTime) (pin : Pin) (v : Z) (w : World) :
  jstPinOutputAtTime t pin v w = addLog [mkEdge t pin v] [] w.
Proof. unfold jstPinOutputAtTime, addLog. by rewrite app_nil_r. Qed.

Lemma consolePrintf_addLog (fmt : string) (args : list Z) (w : World) :
  jsiConsolePrintf fmt args w = addLog [] [mkConsoleLine fmt args] w.
Proof. unfold jsiConsolePrintf, addLog. by rewrite app_nil_r. Qed.

(** The loop, followed by the trailing call of lines 265-266, emits the
    edges of [runOffsets] and leaves the cursor one run further. *)
Lemma scanLoop_offsets (n : nat) :
  forall (len : JsSysTime) (pin : Pin) (t0 pos : Z) (st : Scan),
    0 <= sc_bCnt st ->
    sc_bCnt st + Z.of_nat n < 2 ^ 31 ->
    wrap64 (sc_time st) = wrap64 (t0 + len * pos) ->
    let st' := scanLoop n len pin st in
    let tf := add64 (sc_time st') (mul64 (sc_bCnt st') len) in
    jstPinOutputAtTime tf pin (sc_bVal st') (sc_world st')
      = addLog (map (edgeAt t0 len pin)
                    (runOffsets n (sc_bitData st) (sc_bVal st) (sc_bCnt st)
                                pos))
               [] (sc_world st)
    /\ tf = wrap64 (t0 + len * (pos + sc_bCnt st + Z.of_nat n)).
Proof.
  induction n as [|n IH]; intros len pin t0 pos st Hc Hn Ht; cbn zeta.
  - simpl scanLoop. simpl runOffsets.
    rewrite (mul64_comm (sc_bCnt st) len), (cursor_step _ t0 len pos) by done.
    split; [apply pinOutputAtTime_addLog | f_equal; lia].
  - simpl scanLoop. simpl runOffsets. unfold scanStep, shr32.
    destruct (negb (sc_bCnt st =? 0)
              && negb (sc_bVal st =? Z.land (sc_bitData st) 1)) eqn:Hemit.
    + set (t := add64 (sc_time st) (mul64 len (sc_bCnt st))).
      assert (Et : t = wrap64 (t0 + len * (pos + sc_bCnt st)))
        by (apply cursor_step; done).
      destruct (IH len pin t0 (pos + sc_bCnt st)
                  (mkScan (Z.shiftr (sc_bitData st) 1)
                          (Z.land (sc_bitData st) 1) (add32 0 1) t
                          (jstPinOutputAtTime t pin (sc_bVal st)
                                              (sc_world st))))
        as [Hw Hf].
      * simpl. vm_compute. discriminate.
      * simpl. change (add32 0 1) with 1. lia.
      * simpl. rewrite Et. apply wrap_idem.
      * simpl in Hw, Hf. change (add32 0 1) with 1 in *. split.
        -- rewrite Hw, pinOutputAtTime_addLog, addLog_addLog. simpl.
           unfold edgeAt at 2. simpl. by rewrite <- Et.
        -- rewrite Hf. f_equal. lia.
    + assert (Ec : add32 (sc_bCnt st) 1 = sc_bCnt st + 1).
      { apply wrap32_small. unfold in_int32. lia. }
      destruct (IH len pin t0 pos
                  (mkScan (Z.shiftr (sc_bitData st) 1)
                          (Z.land (sc_bitData st) 1)
                          (add32 (sc_bCnt st) 1) (sc_time st) (sc_world st)))
        as [Hw Hf].
      * simpl. lia.
      * simpl. lia.
      * simpl. done.
      * simpl in Hw, Hf. rewrite Ec in *. split; [done|].
        rewrite Hf. f_equal. lia.
Qed.

Lemma frameBits_count (data : Z) (i : JshUSARTInfo) :
  0 <= stopbits i < 256 ->
  snd (frameBits data (set_bytesize 8 i)) = totalBitCount i.
Proof.
  intros H. unfold frameBits, totalBitCount. simpl.
  change (add32 1 8) with 9. unfold add32.
  rewrite wrap32_small; [lia | unfold in_int32; lia].
Qed.

(** One byte through the software sink: the description with 8 data
    bits, the cursor one frame further, one console line, and the edges
    of [frameOffsets]. *)
Lemma print_sw_offsets (data : Z) (s : SWSerialStruct) (w : World)
    (t0 pos : Z) :
  0 <= stopbits (inf s) < 256 ->
  wrap64 (time s) = wrap64 (t0 + bitLength s * pos) ->
  _jswrap_serial_print_sw data s w
    = (mkSWSerial (set_bytesize 8 (inf s))
                  (wrap64 (t0 + bitLength s * (pos + totalBitCount (inf s))))
                  (bitLength s),
       addLog (map (edgeAt t0 (bitLength s) (pinTX (inf s)))
                   (frameOffsets data (inf s) pos))
              [debugLine s] w).
Proof.
  intros Hsb Ht. unfold _jswrap_serial_print_sw, frameOffsets.
  pose proof (frameBits_count data (inf s) Hsb) as Hcount.
  destruct (frameBits data (set_bytesize 8 (inf s))) as [bitData bitCount].
  simpl in Hcount. subst bitCount.
  assert (Hn : Z.of_nat (Z.to_nat (totalBitCount (inf s)))
               = totalBitCount (inf s)).
  { unfold totalBitCount. lia. }
  destruct (scanLoop_offsets (Z.to_nat (totalBitCount (inf s))) (bitLength s)
              (pinTX (set_bytesize 8 (inf s))) t0 pos
              (mkScan bitData (-1) 0 (time s)
                      (jsiConsolePrintf debugFormat [wrap32 (bitLength s)] w)))
    as [Hw Hf].
  - simpl. lia.
  - simpl. rewrite Hn. unfold totalBitCount. lia.
  - done.
  - cbn zeta in Hw, Hf. simpl sc_bCnt in Hf at 2. rewrite Hn in Hf.
    rewrite Hw, Hf. simpl sc_world. simpl sc_bitData. simpl sc_bVal.
    simpl sc_bCnt. rewrite consolePrintf_addLog, addLog_addLog. simpl.
    f_equal. f_equal. f_equal. lia.
Qed.

End EncoderFacts.

(** ** Order of the offsets *)

Section OffsetFacts.

(** Every edge of a byte lies after the offset the loop stands at and no
    later than the end of the frame. *)
Lemma runOffsets_bounds (n : nat) :
  forall bitData bVal bCnt pos : Z,
    0 <= bCnt -> 1 <= bCnt + Z.of_nat n ->
    Forall (fun e => pos < fst e <= pos + bCnt + Z.of_nat n)
           (runOffsets n bitData bVal bCnt pos).
Proof.
  induction n as [|n IH]; intros bitData bVal bCnt pos H0 H1.
  - simpl. constructor; [simpl; lia | constructor].
  - simpl runOffsets.
    destruct (negb (bCnt =? 0) && negb (bVal =? Z.land bitData 1)) eqn:E.
    + apply andb_true_iff in E as [E _]. apply negb_true_iff in E.
      apply Z.eqb_neq in E. constructor; [simpl; lia|].
      eapply List.Forall_impl; [| apply IH; lia].
      intros e He. simpl in He. lia.
    + eapply List.Forall_impl; [| apply IH; lia].
      intros e He. simpl in He. lia.
Qed.

Lemma runOffsets_increasing (n : nat) :
  forall bitData bVal bCnt pos : Z,
    0 <= bCnt -> 1 <= bCnt + Z.of_nat n ->
    StronglySorted Z.lt (map fst (runOffsets n bitData bVal bCnt pos)).
Proof.
  induction n as [|n IH]; intros bitData bVal bCnt pos H0 H1.
  - simpl. repeat constructor.
  - simpl runOffsets.
    destruct (negb (bCnt =? 0) && negb (bVal =? Z.land bitData 1)) eqn:E.
    + simpl. constructor; [apply IH; lia|].
      apply List.Forall_map.
      eapply List.Forall_impl; [| apply runOffsets_bounds; lia].
      intros e He. simpl in He. simpl. lia.
    + apply IH; lia.
Qed.

(** The last edge of a byte is the trailing run, at the end of the
    frame. *)
Lemma runOffsets_last (n : nat) :
  forall bitData bVal bCnt pos : Z,
    exists front level,
      runOffsets n bitData bVal bCnt pos
        = front ++ [(pos + bCnt + Z.of_nat n, level)].
Proof.
  induction n as [|n IH]; intros bitData bVal bCnt pos.
  - exists [], bVal. simpl. do 2 f_equal. lia.
  - simpl runOffsets.
    destruct (negb (bCnt =? 0) && negb (bVal =? Z.land bitData 1)).
    + destruct (IH (Z.shiftr bitData 1) (Z.land bitData 1) 1 (pos + bCnt))
        as (front & level & E).
      exists ((pos + bCnt, bVal) :: front), level. rewrite E.
      replace (pos + bCnt + Z.of_nat (S n))
        with (pos + bCnt + 1 + Z.of_nat n) by lia.
      reflexivity.
    + destruct (IH (Z.shiftr bitData 1) (Z.land bitData 1) (bCnt + 1) pos)
        as (front & level & E).
      exists front, level. rewrite E.
      replace (pos + bCnt + Z.of_nat (S n))
        with (pos + (bCnt + 1) + Z.of_nat n) by lia.
      reflexivity.
Qed.

Lemma frameOffsets_bounds (data : Z) (i : JshUSARTInfo) (pos : Z) :
  0 <= stopbits i < 256 ->
  Forall (fun e => pos < fst e <= pos + totalBitCount i)
         (frameOffsets data i pos).
Proof.
  intros H. unfold frameOffsets.
  pose proof (frameBits_count data i H) as Hc.
  destruct (frameBits data (set_bytesize 8 i)) as [bitData bitCount].
  simpl in Hc. subst bitCount.
  eapply List.Forall_impl;
    [| apply runOffsets_bounds; unfold totalBitCount; lia].
  intros e He. simpl in He. unfold totalBitCount in *. lia.
Qed.

Lemma frameOffsets_increasing (data : Z) (i : JshUSARTInfo) (pos : Z) :
  0 <= stopbits i < 256 ->
  StronglySorted Z.lt (map fst (frameOffsets data i pos)).
Proof.
  intros H. unfold frameOffsets.
  pose proof (frameBits_count data i H) as Hc.
  destruct (frameBits data (set_bytesize 8 i)) as [bitData bitCount].
  simpl in Hc. subst bitCount.
  apply runOffsets_increasing; unfold totalBitCount; lia.
Qed.

Lemma frameOffsets_last (data : Z) (i : JshUSARTInfo) (pos : Z) :
  0 <= stopbits i < 256 ->
  exists front level,
    frameOffsets data i pos = front ++ [(pos + totalBitCount i, level)].
Proof.
  intros H. unfold frameOffsets.
  pose proof (frameBits_count data i H) as Hc.
  destruct (frameBits data (set_bytesize 8 i)) as [bitData bitCount].
  simpl in Hc. subst bitCount.
  destruct (runOffsets_last (Z.to_nat (totalBitCount i)) bitData (-1) 0 pos)
    as (front & level & E).
  exists front, level. rewrite E.
  replace (pos + 0 + Z.of_nat (Z.to_nat (totalBitCount i)))
    with (pos + totalBitCount i) by (unfold totalBitCount; lia).
  reflexivity.
Qed.

Lemma frameOffsets_bytesize (data : Z) (i : JshUSARTInfo) (pos : Z) :
  frameOffsets data (set_bytesize 8 i) pos = frameOffsets data i pos.
Proof. reflexivity. Qed.

Lemma callOffsets_bytesize (items : list Z) (i : JshUSARTInfo) :
  forall pos, callOffsets items (set_bytesize 8 i) pos
              = callOffsets items i pos.
Proof. induction items as [|x rest IH]; intros pos; simpl; [done|].
  rewrite IH. reflexivity. Qed.

Lemma callOffsets_app (a b : list Z) (i : JshUSARTInfo) :
  forall pos,
    callOffsets (a ++ b) i pos
      = callOffsets a i pos
          ++ callOffsets b i (pos + totalBitCount i * Z.of_nat (length a)).
Proof.
  induction a as [|x a IH]; intros pos.
  - simpl. f_equal. lia.
  - simpl app. simpl callOffsets. rewrite IH, <- app_assoc.
    replace (pos + totalBitCount i * Z.of_nat (S (length a)))
      with (pos + totalBitCount i + totalBitCount i * Z.of_nat (length a))
      by lia.
    reflexivity.
Qed.

Lemma callOffsets_bounds (items : list Z) (i : JshUSARTInfo) :
  0 <= stopbits i < 256 ->
  forall pos,
    Forall (fun e => pos < fst e
                     <= pos + totalBitCount i * Z.of_nat (length items))
           (callOffsets items i pos).
Proof.
  intros H. induction items as [|x rest IH]; intros pos; simpl callOffsets.
  - constructor.
  - assert (0 <= totalBitCount i * Z.of_nat (length rest))
      by (unfold totalBitCount; nia).
    apply Forall_app. split.
    + eapply List.Forall_impl; [| apply frameOffsets_bounds; done].
      intros e He. simpl in He. simpl length. nia.
    + eapply List.Forall_impl; [| apply IH].
      intros e He. simpl in He. simpl length.
      unfold totalBitCount in *. nia.
Qed.

Lemma callOffsets_increasing (items : list Z) (i : JshUSARTInfo) :
  0 <= stopbits i < 256 ->
  forall pos, StronglySorted Z.lt (map fst (callOffsets items i pos)).
Proof.
  intros H. induction items as [|x rest IH]; intros pos; simpl callOffsets.
  - constructor.
  - rewrite map_app. apply StronglySorted_app_2.
    + intros a b Ha Hb.
      apply list_elem_of_In, in_map_iff in Ha as (ea & <- & Ha).
      apply list_elem_of_In, in_map_iff in Hb as (eb & <- & Hb).
      pose proof (frameOffsets_bounds x i pos H) as Fa.
      pose proof (callOffsets_bounds rest i H (pos + totalBitCount i)) as Fb.
      rewrite List.Forall_forall in Fa, Fb.
      specialize (Fa ea Ha). specialize (Fb eb Hb). simpl in Fa, Fb. lia.
    + apply frameOffsets_increasing; done.
    + apply IH.
Qed.

End OffsetFacts.

(** ** One call of the dispatcher *)

Section CallFacts.
Context `{P : Platform}.

Lemma addErrors_nil (w : World) : addErrors [] w = w.
Proof. destruct w. unfold addErrors. simpl. by rewrite app_nil_r. Qed.

Lemma exceptionHere_addErrors (e : SerialError) (w : World) :
  jsExceptionHere e w = addErrors [e] w.
Proof. reflexivity. Qed.

Lemma addErrors_addErrors (e1 e2 : list SerialError) (w : World) :
  addErrors e2 (addErrors e1 w) = addErrors (e1 ++ e2) w.
Proof. unfold addErrors. simpl. by rewrite app_assoc. Qed.

(** The configuration step touches nothing but the exceptions. *)
Lemma getUsartInfo_options_errors (options : JsVar) (i : JshUSARTInfo)
    (w : World) :
  exists errs,
    snd (getUsartInfo_options options i w) = addErrors errs w.
Proof.
  unfold getUsartInfo_options.
  repeat match goal with
         | |- context [if ?b then _ else _] => destruct b
         end; simpl;
    (by exists []; rewrite addErrors_nil) || (by eexists [_]).
Qed.

Lemma getUsartInfo_errors (baud options : JsVar) (w : World) :
  exists errs,
    snd (_jswrap_serial_getUsartInfo baud options w) = addErrors errs w.
Proof.
  unfold _jswrap_serial_getUsartInfo.
  destruct (negb (jsvIsUndefined baud)).
  - destruct ((jsvGetInteger baud <=? 100) || (10000000 <? jsvGetInteger baud)).
    + destruct (jsvIsObject options).
      * destruct (getUsartInfo_options_errors options jshUSARTInitInfo
                    (jsExceptionHere InvalidBaudRate w)) as [errs E].
        exists (InvalidBaudRate :: errs). rewrite E.
        rewrite exceptionHere_addErrors, addErrors_addErrors. reflexivity.
      * by exists [InvalidBaudRate].
    + destruct (jsvIsObject options).
      * apply getUsartInfo_options_errors.
      * exists []. simpl. by rewrite addErrors_nil.
  - destruct (jsvIsObject options).
    + apply getUsartInfo_options_errors.
    + exists []. simpl. by rewrite addErrors_nil.
Qed.

Lemma feedSink_app (a b : list Z) :
  forall (k : Sink) (w : World),
    feedSink (a ++ b) k w
      = let '(k', w') := feedSink a k w in feedSink b k' w'.
Proof.
  induction a as [|x a IH]; intros k w; simpl; [done|].
  destruct (callSink x k w) as [k1 w1]. apply IH.
Qed.

Lemma printWith_feed (arg : JsVar) (isPrint newLine : bool) (k : Sink)
    (w : World) :
  printWith arg isPrint newLine k w
    = let '(k', w') := feedSink (callItems arg isPrint newLine) k w in
      match k' with
      | SoftwareSink s =>
          (k', jstPinOutputAtTime (time s) (pinTX (inf s)) 1 w')
      | HardwareSink _ => (k', w')
      end.
Proof.
  unfold printWith, callItems, jsvIterateCallback. rewrite feedSink_app.
  destruct (feedSink _ k w) as [k1 w1]. destruct newLine; simpl.
  - destruct (callSink 13 k1 w1) as [k2 w2].
    destruct (callSink 10 k2 w2) as [k3 w3]. reflexivity.
  - reflexivity.
Qed.

(** A run of bytes through the software sink: the edges of
    [callOffsets], one console line a byte, and the cursor as many
    frames further. *)
Lemma feedSink_software (items : list Z) :
  forall (s : SWSerialStruct) (w : World) (t0 pos : Z),
    0 <= stopbits (inf s) < 256 ->
    time s = wrap64 (t0 + bitLength s * pos) ->
    exists s',
      feedSink items (SoftwareSink s) w
        = (SoftwareSink s',
           addLog (map (edgeAt t0 (bitLength s) (pinTX (inf s)))
                       (callOffsets items (inf s) pos))
                  (repeat (debugLine s) (length items)) w)
      /\ time s'
         = wrap64 (t0 + bitLength s
                        * (pos + totalBitCount (inf s)
                                 * Z.of_nat (length items)))
      /\ bitLength s' = bitLength s
      /\ pinTX (inf s') = pinTX (inf s)
      /\ stopbits (inf s') = stopbits (inf s).
Proof.
  induction items as [|x rest IH]; intros s w t0 pos Hsb Ht.
  - exists s. simpl. rewrite addLog_nil. repeat split; try done.
    rewrite Ht. f_equal. lia.
  - cbn [feedSink callSink].
    rewrite (print_sw_offsets x s w t0 pos Hsb)
      by (rewrite Ht; apply wrap_idem).
    set (s1 := mkSWSerial (set_bytesize 8 (inf s)) _ (bitLength s)).
    destruct (IH s1
                (addLog (map (edgeAt t0 (bitLength s) (pinTX (inf s)))
                             (frameOffsets x (inf s) pos))
                        [debugLine s] w)
                t0 (pos + totalBitCount (inf s)) Hsb eq_refl)
      as (s' & E & Htime & Hlen & Hpin & Hstop).
    exists s'. rewrite E. simpl in *. rewrite addLog_addLog.
    rewrite callOffsets_bytesize, map_app.
    repeat split; try done.
    rewrite Htime. f_equal.
    change (totalBitCount (set_bytesize 8 (inf s)))
      with (totalBitCount (inf s)).
    lia.
Qed.

(** A whole call on a software port with a transmit pin: the pin is driven
    high, the bytes are framed back to back from [now + lead], and one
    edge at the final cursor closes the call. *)
Lemma print_software_call (parent : SerialObject) (arg : JsVar)
    (isPrint newLine : bool) (w w1 : World) (i : JshUSARTInfo) :
  DEVICE_IS_USART (device parent) = false ->
  storedConfig parent w = (i, w1) ->
  jshIsPinValid (pinTX i) = true ->
  0 <= stopbits i < 256 ->
  exists s',
    _jswrap_serial_print parent arg isPrint newLine w
      = (Some (SoftwareSink s'),
         addLog
           (map (edgeAt (sysTime w + leadTime) (bitTime (baudRate i))
                        (pinTX i))
                (callOffsets (callItems arg isPrint newLine) i 0)
              ++ [mkEdge (time s') (pinTX i) 1])
           (repeat (mkConsoleLine debugFormat [wrap32 (bitTime (baudRate i))])
                   (length (callItems arg isPrint newLine)))
           (jshPinOutput (pinTX i) 1 w1))
    /\ time s'
       = wrap64 (sysTime w + leadTime
                 + bitTime (baudRate i)
                   * (totalBitCount i
                      * Z.of_nat (length (callItems arg isPrint newLine))))
    /\ bitLength s' = bitTime (baudRate i).
Proof.
  intros Hdev Hcfg Hpin Hsb.
  unfold _jswrap_serial_print, jsiGetDeviceFromClass. rewrite Hdev.
  unfold storedConfig in Hcfg. rewrite Hcfg, Hpin. cbn [negb].
  rewrite printWith_feed.
  assert (Hnow : sysTime w1 = sysTime w).
  { destruct (getUsartInfo_errors (getChild parent USART_BAUDRATE_NAME)
                (getChild parent DEVICE_OPTIONS_NAME) w) as [errs E].
    rewrite Hcfg in E. simpl in E. by rewrite E. }
  set (w2 := jshPinOutput (pinTX i) 1 w1).
  destruct (feedSink_software (callItems arg isPrint newLine)
              (softwareSink i w2) w2 (sysTime w + leadTime) 0)
    as (s' & E & Htime & Hlen & Hp & _).
  - done.
  - unfold softwareSink, jshGetSystemTime, add64. simpl.
    rewrite Hnow. f_equal. lia.
  - exists s'. rewrite E. simpl in Hlen, Hp. rewrite Hp.
    rewrite pinOutputAtTime_addLog, addLog_addLog, app_nil_r.
    split; [reflexivity | split; [ | done ] ].
    rewrite Htime. reflexivity.
Qed.

End CallFacts.

(** ** The encoder: cursor, console and edges *)

Section EncoderClaims.
Context `{P : Platform}.

Lemma scanLoop_console (n : nat) :
  forall (len : JsSysTime) (pin : Pin) (st : Scan),
    console (sc_world (scanLoop n len pin st)) = console (sc_world st).
Proof.
  induction n as [|n IH]; intros len pin st; simpl; [done|].
  rewrite IH. unfold scanStep.
  destruct (negb (sc_bCnt st =? 0) && negb (sc_bVal st =? _)); reflexivity.
Qed.

Lemma print_sw_console (data : Z) (s : SWSerialStruct) (w : World) :
  console (snd (_jswrap_serial_print_sw data s w))
    = console w ++ [debugLine s].
Proof.
  unfold _jswrap_serial_print_sw.
  destruct (frameBits data (set_bytesize 8 (inf s))) as [bitData bitCount].
  simpl. by rewrite scanLoop_console.
Qed.

Lemma print_sw_bitLength (data : Z) (s : SWSerialStruct) (w : World) :
  bitLength (fst (_jswrap_serial_print_sw data s w)) = bitLength s.
Proof.
  unfold _jswrap_serial_print_sw.
  by destruct (frameBits data (set_bytesize 8 (inf s))).
Qed.

Lemma print_sw_pinTX (data : Z) (s : SWSerialStruct) (w : World) :
  pinTX (inf (fst (_jswrap_serial_print_sw data s w))) = pinTX (inf s).
Proof.
  unfold _jswrap_serial_print_sw.
  by destruct (frameBits data (set_bytesize 8 (inf s))).
Qed.

Lemma feedSink_console (items : list Z) :
  forall (s : SWSerialStruct) (w : World),
    console (snd (feedSink items (SoftwareSink s) w))
      = console w ++ repeat (debugLine s) (length items).
Proof.
  induction items as [|x rest IH]; intros s w.
  - simpl. by rewrite app_nil_r.
  - cbn [feedSink callSink].
    pose proof (print_sw_console x s w) as Hc.
    pose proof (print_sw_bitLength x s w) as Hl.
    destruct (_jswrap_serial_print_sw x s w) as [s1 w1]. simpl in Hc, Hl.
    rewrite IH, Hc. unfold debugLine. rewrite Hl, <- app_assoc. reflexivity.
Qed.

(** C10: for every byte the software sink encodes, the encoder also prints
    one debug line holding the bit length (cast to [int]) on the console;
    a run of bytes prints one such line a byte. *)
Theorem C10_debug_line_per_byte (data : Z) (items : list Z)
    (s : SWSerialStruct) (w : World) :
  console (snd (_jswrap_serial_print_sw data s w))
    = console w ++ [mkConsoleLine debugFormat [wrap32 (bitLength s)]]
  /\ console (snd (feedSink items (SoftwareSink s) w))
     = console w
         ++ repeat (mkConsoleLine debugFormat [wrap32 (bitLength s)])
                   (length items).
Proof. split; [apply print_sw_console | apply feedSink_console]. Qed.

(** An offset inside the frame gives a tick count inside the 64 bit
    range when both ends of the frame are. *)
Lemma edgeAt_exact (t0 len : JsSysTime) (pin : Pin) (total : Z)
    (e : Z * Z) :
  in_int64 t0 -> in_int64 (t0 + len * total) ->
  0 <= fst e <= total ->
  edgeAt t0 len pin e = edgeExact t0 len pin e.
Proof.
  unfold in_int64, edgeAt, edgeExact. intros H0 H1 He.
  rewrite wrap64_small; [done|]. unfold in_int64.
  destruct (Z_le_gt_dec 0 len); nia.
Qed.

Lemma map_edgeAt_exact (t0 len : JsSysTime) (pin : Pin) (total : Z)
    (offs : list (Z * Z)) :
  in_int64 t0 -> in_int64 (t0 + len * total) ->
  Forall (fun e => 0 <= fst e <= total) offs ->
  map (edgeAt t0 len pin) offs = map (edgeExact t0 len pin) offs.
Proof.
  intros H0 H1 Hall. induction Hall as [|e rest He _ IH]; simpl; [done|].
  rewrite IH. f_equal. by apply (edgeAt_exact t0 len pin total).
Qed.

(** C3: encoding one byte moves the cursor by exactly
    [bitLength * totalBitCount]; the bit length is left as it was; every
    edge of the byte lies a whole number of bit lengths after the cursor
    the byte started from; and after any run of bytes the cursor is the
    first cursor plus a whole number of frames.  The hypotheses say that
    [stopbits] is an [unsigned char] and that the cursor before and
    after the byte fits [JsSysTime]. *)
Theorem C3_cursor_advances_by_whole_frame (data : Z) (s : SWSerialStruct)
    (w : World) :
  0 <= stopbits (inf s) < 256 ->
  in_int64 (time s) ->
  in_int64 (time s + bitLength s * totalBitCount (inf s)) ->
  time (fst (_jswrap_serial_print_sw data s w))
    = time s + bitLength s * totalBitCount (inf s)
  /\ bitLength (fst (_jswrap_serial_print_sw data s w)) = bitLength s
  /\ (exists offs,
        edges (snd (_jswrap_serial_print_sw data s w))
          = edges w ++ map (edgeExact (time s) (bitLength s) (pinTX (inf s)))
                           offs
        /\ Forall (fun e => 0 < fst e <= totalBitCount (inf s)) offs)
  /\ (forall items,
        cursorAfter items s w
          = wrap64 (time s + bitLength s
                             * (totalBitCount (inf s)
                                * Z.of_nat (length items)))).
Proof.
  intros Hsb Ht Hend.
  assert (Ht0 : time s = wrap64 (time s + bitLength s * 0)).
  { rewrite Z.mul_0_r, Z.add_0_r. symmetry. by apply wrap64_small. }
  rewrite (print_sw_offsets data s w (time s) 0 Hsb)
    by (rewrite <- Ht0; by apply wrap64_small).
  cbn [fst snd time bitLength]. rewrite Z.add_0_l.
  split; [by apply wrap64_small|]. split; [done|]. split.
  - exists (frameOffsets data (inf s) 0). split.
    + cbn [addLog edges]. f_equal.
      apply (map_edgeAt_exact _ _ _ (totalBitCount (inf s))); try done.
      eapply List.Forall_impl; [| apply frameOffsets_bounds; done].
      intros e He. simpl in He. lia.
    + eapply List.Forall_impl; [| apply frameOffsets_bounds; done].
      intros e He. simpl in He. lia.
  - intros items. unfold cursorAfter.
    destruct (feedSink_software items s w (time s) 0 Hsb Ht0)
      as (s' & E & Htime & _).
    rewrite E. simpl. rewrite Htime. f_equal.
Qed.

End EncoderClaims.

(** The hypotheses of C3 at the 9600 baud sink of the concrete platform,
    cursor 1000000, byte 0x41. *)
Lemma C3_cursor_advances_by_whole_frame_witness :
  let s := Reference.sink9600 1000000 in
  let r := @_jswrap_serial_print_sw Reference.platform 65 s
             (Reference.world0 0) in
  time (fst r) = 1000000 + 104 * 10 /\ bitLength (fst r) = 104.
Proof.
  intros s r.
  destruct (@C3_cursor_advances_by_whole_frame Reference.platform 65 s
              (Reference.world0 0)) as (Ht & Hl & _).
  - eval_bounds.
  - eval_bounds.
  - eval_bounds.
  - split; [exact Ht | exact Hl].
Defined.

(** ** Frames of concrete bytes *)

Section FrameClaims.
Context `{P : Platform}.

(** C2, as the code has it: with 1 stop bit the byte 0x41 is framed as
    the ten bits 0,1,0,0,0,0,0,1,0,1 (start bit, eight data bits LSB
    first, stop bit), the runs 0x1, 1x1, 0x5, 1x1, 0x1, 1x1, and the
    encoder emits exactly six edges, 1, 2, 7, 8, 9 and 10 bit lengths
    after the cursor the byte started from, each holding the level of the
    run it ends; the cursor ends ten bit lengths further.  This holds for
    every bit length, that of 9600 baud included. *)
Theorem C2_byte_0x41_six_edges (s : SWSerialStruct) (w : World) :
  stopbits (inf s) = 1 ->
  in_int64 (time s) ->
  in_int64 (time s + bitLength s * 10) ->
  edges (snd (_jswrap_serial_print_sw 65 s w))
    = edges w
        ++ map (edgeExact (time s) (bitLength s) (pinTX (inf s)))
               [(1, 0); (2, 1); (7, 0); (8, 1); (9, 0); (10, 1)]
  /\ time (fst (_jswrap_serial_print_sw 65 s w)) = time s + bitLength s * 10.
Proof.
  intros Hstop Ht Hend.
  assert (Hsb : 0 <= stopbits (inf s) < 256) by lia.
  assert (Hf : totalBitCount (inf s) = 10) by (unfold totalBitCount; lia).
  assert (Ht0 : wrap64 (time s) = wrap64 (time s + bitLength s * 0))
    by (f_equal; lia).
  rewrite (print_sw_offsets 65 s w (time s) 0 Hsb Ht0).
  cbn [fst snd time addLog edges]. rewrite Hf, Z.add_0_l.
  assert (Eo : frameOffsets 65 (inf s) 0
               = [(1, 0); (2, 1); (7, 0); (8, 1); (9, 0); (10, 1)]).
  { destruct s as [i t len]. destruct i. simpl in Hstop. subst.
    vm_compute. reflexivity. }
  rewrite Eo. split; [| by apply wrap64_small].
  f_equal. apply (map_edgeAt_exact _ _ _ 10); try done.
  repeat constructor; simpl; lia.
Qed.

(** C9: a write of any two bytes [a] and [b] ([write([65, 66])] for one)
    on a software port runs the encoder twice, the second frame starting
    from the cursor the first one left, and then schedules one edge to
    logic 1 at the final cursor;
    that cursor lies two frames after the start (exactly so when the
    tick count fits 64 bits), and the edges of the call are those of the
    two frames followed by that single edge. *)
Theorem C9_two_bytes_two_frames_one_idle_edge (parent : SerialObject)
    (arg : JsVar) (a b : Z) (w w1 : World) (i : JshUSARTInfo) :
  DEVICE_IS_USART (device parent) = false ->
  storedConfig parent w = (i, w1) ->
  jshIsPinValid (pinTX i) = true ->
  0 <= stopbits i < 256 ->
  iterateItems arg = [a; b] ->
  let t0 := sysTime w + leadTime in
  let len := bitTime (baudRate i) in
  let w2 := jshPinOutput (pinTX i) 1 w1 in
  let r1 := _jswrap_serial_print_sw a (softwareSink i w2) w2 in
  let r2 := _jswrap_serial_print_sw b (fst r1) (snd r1) in
  jswrap_serial_write parent arg w
    = (Some (SoftwareSink (fst r2)),
       jstPinOutputAtTime (time (fst r2)) (pinTX i) 1 (snd r2))
  /\ time (fst r2) = wrap64 (t0 + len * (2 * totalBitCount i))
  /\ (in_int64 (t0 + len * (2 * totalBitCount i)) ->
      time (fst r2) = t0 + len * (2 * totalBitCount i))
  /\ edges (snd (jswrap_serial_write parent arg w))
     = edges w
         ++ map (edgeAt t0 len (pinTX i))
                (frameOffsets a i 0 ++ frameOffsets b i (totalBitCount i))
         ++ [mkEdge (wrap64 (t0 + len * (2 * totalBitCount i))) (pinTX i) 1].
Proof.
  intros Hdev Hcfg Hpin Hsb Hitems t0 len w2 r1 r2.
  assert (Hrun : jswrap_serial_write parent arg w
                 = (Some (SoftwareSink (fst r2)),
                    jstPinOutputAtTime (time (fst r2)) (pinTX i) 1 (snd r2))).
  { unfold jswrap_serial_write, _jswrap_serial_print, jsiGetDeviceFromClass.
    rewrite Hdev. unfold storedConfig in Hcfg. rewrite Hcfg, Hpin.
    cbn [negb]. unfold printWith, jsvIterateCallback. rewrite Hitems.
    cbn [feedSink callSink]. fold w2. subst r2 r1.
    pose proof (print_sw_pinTX a (softwareSink i w2) w2) as Hp1.
    destruct (_jswrap_serial_print_sw a (softwareSink i w2) w2)
      as [s1 wa].
    cbn [fst snd] in *. cbn [feedSink callSink].
    pose proof (print_sw_pinTX b s1 wa) as Hp2.
    destruct (_jswrap_serial_print_sw b s1 wa) as [s2 wb].
    cbn [fst snd] in *. rewrite Hp2, Hp1. reflexivity. }
  clearbody r2. clear r1.
  destruct (print_software_call parent arg false false w w1 i
              Hdev Hcfg Hpin Hsb) as (s' & E & Htime & _).
  unfold jswrap_serial_write in *. rewrite Hrun in E.
  assert (Hit : callItems arg false false = [a; b]).
  { unfold callItems. rewrite Hitems. reflexivity. }
  rewrite Hit in E, Htime.
  pose proof (f_equal fst E) as Es. pose proof (f_equal snd E) as Ew.
  cbn [fst snd] in Es, Ew. injection Es as Es.
  assert (Hcur : time (fst r2) = wrap64 (t0 + len * (2 * totalBitCount i))).
  { rewrite Es, Htime. f_equal. fold t0 len. simpl length. lia. }
  split; [done|]. split; [done|]. split.
  - intros Hfit. rewrite Hcur. by apply wrap64_small.
  - rewrite Hrun. cbn [snd]. rewrite Ew. cbn [addLog edges jshPinOutput].
    destruct (getUsartInfo_errors (getChild parent USART_BAUDRATE_NAME)
                (getChild parent DEVICE_OPTIONS_NAME) w) as [errs Ee].
    unfold storedConfig in Hcfg. rewrite Hcfg in Ee. simpl in Ee.
    rewrite Ee. cbn [addErrors edges callOffsets].
    rewrite app_nil_r, Z.add_0_l, Htime. fold t0 len.
    replace (t0 + len * (totalBitCount i * Z.of_nat (length [a; b])))
      with (t0 + len * (2 * totalBitCount i)) by (simpl length; lia).
    reflexivity.
Qed.

End FrameClaims.

(** C2 as the specification words it fails on the concrete platform: at
    9600 baud (104 ticks a bit), 8 data bits and 1 stop bit the byte
    0x41 gives six edges, not the four at 1, 2, 7 and 9 bit lengths. *)
Lemma C2_byte_0x41_not_four_edges :
  map ev_time
      (edges (snd (@_jswrap_serial_print_sw Reference.platform 65
                     (Reference.sink9600 0) (Reference.world0 0))))
    <> [104 * 1; 104 * 2; 104 * 7; 104 * 9]
  /\ length (edges (snd (@_jswrap_serial_print_sw Reference.platform 65
                           (Reference.sink9600 0) (Reference.world0 0))))
     = 6%nat.
Proof. split; [vm_compute; discriminate | vm_compute; reflexivity]. Qed.

(** The hypotheses of C2 at the 9600 baud sink of the concrete platform. *)
Lemma C2_byte_0x41_six_edges_witness :
  map ev_time
      (edges (snd (@_jswrap_serial_print_sw Reference.platform 65
                     (Reference.sink9600 0) (Reference.world0 0))))
    = [104; 208; 728; 832; 936; 1040].
Proof.
  destruct (@C2_byte_0x41_six_edges Reference.platform (Reference.sink9600 0)
              (Reference.world0 0)) as [He _].
  - reflexivity.
  - eval_bounds.
  - eval_bounds.
  - rewrite He. reflexivity.
Defined.

(** The hypotheses of C9 on the concrete platform: [write([65, 66])] on
    a 9600 baud port on pin 5 schedules the six edges of each frame and
    one closing edge, thirteen in all, the last at [now + lead + 20] bit
    lengths. *)
Lemma C9_two_bytes_two_frames_one_idle_edge_witness :
  map ev_time
      (edges (snd (@jswrap_serial_write Reference.platform
                     (Reference.portOnPin5 9600)
                     (JsArray [JsArray [JsInt 65; JsInt 66]])
                     (Reference.world0 0))))
    = [1000104; 1000208; 1000728; 1000832; 1000936; 1001040;
       1001248; 1001352; 1001768; 1001872; 1001976; 1002080;
       1002080].
Proof.
  destruct (@C9_two_bytes_two_frames_one_idle_edge Reference.platform
              (Reference.portOnPin5 9600)
              (JsArray [JsArray [JsInt 65; JsInt 66]]) 65 66
              (Reference.world0 0) (Reference.world0 0)
              (mkUSARTInfo 9600 255 5 255 8 0 1 false))
    as (_ & _ & _ & He).
  - reflexivity.
  - vm_compute. reflexivity.
  - reflexivity.
  - eval_bounds.
  - reflexivity.
  - rewrite He. vm_compute. reflexivity.
Defined.

(** ** Order of the edges of one call *)

Section OrderClaims.
Context `{P : Platform}.

Lemma callOffsets_last (items : list Z) (i : JshUSARTInfo) :
  0 <= stopbits i < 256 ->
  items <> [] ->
  forall pos,
    exists front level,
      callOffsets items i pos
        = front
            ++ [(pos + totalBitCount i * Z.of_nat (length items), level)].
Proof.
  intros Hsb. induction items as [|x rest IH]; intros Hne pos; [done|].
  destruct rest as [|y rest].
  - destruct (frameOffsets_last x i pos Hsb) as (front & level & E).
    exists front, level. simpl callOffsets. rewrite app_nil_r, E.
    replace (pos + totalBitCount i * Z.of_nat (length [x]))
      with (pos + totalBitCount i) by (simpl length; lia).
    reflexivity.
  - destruct (IH ltac:(done) (pos + totalBitCount i))
      as (front & level & E).
    exists (frameOffsets x i pos ++ front), level.
    change (callOffsets (x :: y :: rest) i pos)
      with (frameOffsets x i pos
              ++ callOffsets (y :: rest) i (pos + totalBitCount i)).
    rewrite E, <- app_assoc.
    replace (pos + totalBitCount i * Z.of_nat (length (x :: y :: rest)))
      with (pos + totalBitCount i
            + totalBitCount i * Z.of_nat (length (y :: rest)))
      by (simpl length; lia).
    reflexivity.
Qed.

(** With a positive bit length, later offsets are later ticks. *)
Lemma edgeExact_increasing (t0 len : JsSysTime) (pin : Pin)
    (offs : list (Z * Z)) :
  0 < len ->
  StronglySorted Z.lt (map fst offs) ->
  StronglySorted Z.lt (map ev_time (map (edgeExact t0 len pin) offs)).
Proof.
  intros Hlen. induction offs as [|e rest IH]; intros Hs; simpl.
  - constructor.
  - simpl in Hs. apply StronglySorted_inv in Hs as [Hrest Hhead].
    constructor; [by apply IH|].
    rewrite List.Forall_map in Hhead. rewrite !List.Forall_map.
    eapply List.Forall_impl; [| exact Hhead].
    intros e' He'. simpl in *. nia.
Qed.

Lemma sorted_lt_le (l : list Z) :
  StronglySorted Z.lt l -> StronglySorted Z.le l.
Proof.
  induction 1 as [|x rest _ IH Hx]; constructor; [done|].
  eapply List.Forall_impl; [| exact Hx]. intros y Hy. simpl in Hy. lia.
Qed.

(** C4, as the code has it: within one software encoded call with a
    positive bit length and tick counts inside the 64 bit range, the
    edges of the frames are submitted with strictly increasing times, all
    after [now + lead]; the call then submits one more edge, to logic 1,
    at the final cursor, which is the time of the last frame edge, so
    the times of the whole sequence are non-decreasing; and the cursor
    never moves back from one byte to the next. *)
Theorem C4_edge_times_nondecreasing (parent : SerialObject) (arg : JsVar)
    (isPrint newLine : bool) (w w1 : World) (i : JshUSARTInfo) :
  DEVICE_IS_USART (device parent) = false ->
  storedConfig parent w = (i, w1) ->
  jshIsPinValid (pinTX i) = true ->
  0 <= stopbits i < 256 ->
  0 < bitTime (baudRate i) ->
  in_int64 (sysTime w + leadTime) ->
  in_int64 (sysTime w + leadTime
            + bitTime (baudRate i)
              * (totalBitCount i
                 * Z.of_nat (length (callItems arg isPrint newLine)))) ->
  let t0 := sysTime w + leadTime in
  let tEnd := t0 + bitTime (baudRate i)
                   * (totalBitCount i
                      * Z.of_nat (length (callItems arg isPrint newLine))) in
  let w2 := jshPinOutput (pinTX i) 1 w1 in
  exists frames,
    edges (snd (_jswrap_serial_print parent arg isPrint newLine w))
      = edges w ++ frames ++ [mkEdge tEnd (pinTX i) 1]
    /\ StronglySorted Z.lt (map ev_time frames)
    /\ Forall (fun e => t0 < ev_time e <= tEnd) frames
    /\ StronglySorted Z.le (map ev_time (frames ++ [mkEdge tEnd (pinTX i) 1]))
    /\ (callItems arg isPrint newLine <> [] ->
        exists front level,
          frames = front ++ [mkEdge tEnd (pinTX i) level])
    /\ (forall a b,
          callItems arg isPrint newLine = a ++ b ->
          t0 <= cursorAfter a (softwareSink i w2) w2
             <= cursorAfter (a ++ b) (softwareSink i w2) w2).
Proof.
  intros Hdev Hcfg Hpin Hsb Hlen Hstart Hend t0 tEnd w2.
  set (len := bitTime (baudRate i)) in *.
  set (items := callItems arg isPrint newLine) in *.
  set (total := totalBitCount i * Z.of_nat (length items)) in *.
  assert (Hf : 9 <= totalBitCount i) by (unfold totalBitCount; lia).
  assert (Hnow : sysTime w1 = sysTime w /\ edges w1 = edges w).
  { destruct (getUsartInfo_errors (getChild parent USART_BAUDRATE_NAME)
                (getChild parent DEVICE_OPTIONS_NAME) w) as [errs E].
    unfold storedConfig in Hcfg. rewrite Hcfg in E. simpl in E.
    by rewrite E. }
  destruct Hnow as [Hnow Hedges].
  pose proof (callOffsets_bounds items i Hsb 0) as Hb.
  rewrite Z.add_0_l in Hb. fold total in Hb.
  assert (Hexact : map (edgeAt t0 len (pinTX i)) (callOffsets items i 0)
                   = map (edgeExact t0 len (pinTX i)) (callOffsets items i 0)).
  { apply (map_edgeAt_exact _ _ _ total); try done.
    eapply List.Forall_impl; [| exact Hb]. intros e He. simpl in He. lia. }
  assert (Hbounds : Forall (fun e => t0 < ev_time e <= tEnd)
                      (map (edgeExact t0 len (pinTX i))
                           (callOffsets items i 0))).
  { apply List.Forall_map. eapply List.Forall_impl; [| exact Hb].
    intros e He. simpl in *. subst tEnd. nia. }
  assert (Hsorted : StronglySorted Z.lt
                      (map ev_time (map (edgeExact t0 len (pinTX i))
                                        (callOffsets items i 0)))).
  { apply edgeExact_increasing; [done|].
    by apply callOffsets_increasing. }
  destruct (print_software_call parent arg isPrint newLine w w1 i
              Hdev Hcfg Hpin Hsb) as (s' & E & Htime & _).
  fold items len total t0 in E, Htime.
  rewrite wrap64_small in Htime by done. fold tEnd in Htime.
  exists (map (edgeExact t0 len (pinTX i)) (callOffsets items i 0)).
  split; [| split; [done | split; [done | split; [| split]]]].
  - rewrite E. cbn [snd addLog edges jshPinOutput].
    by rewrite Hedges, Hexact, Htime.
  - rewrite map_app. apply StronglySorted_app_2.
    + intros a b Ha Hb'. apply list_elem_of_In, in_map_iff in Ha
        as (ea & <- & Ha).
      apply list_elem_of_In in Hb'. simpl in Hb'.
      destruct Hb' as [<- | []]. simpl.
      rewrite List.Forall_forall in Hbounds. apply Hbounds in Ha. lia.
    + by apply sorted_lt_le.
    + repeat constructor.
  - intros Hne.
    destruct (callOffsets_last items i Hsb Hne 0) as (front & level & El).
    exists (map (edgeExact t0 len (pinTX i)) front), level.
    rewrite El, map_app. reflexivity.
  - intros a b Hab.
    assert (Hs0 : time (softwareSink i w2)
                  = wrap64 (t0 + bitLength (softwareSink i w2) * 0)).
    { unfold softwareSink, jshGetSystemTime, add64. simpl.
      rewrite Hnow. f_equal. subst t0. lia. }
    assert (Hcur : forall l, (length l <= length items)%nat ->
              cursorAfter l (softwareSink i w2) w2
              = t0 + len * (totalBitCount i * Z.of_nat (length l))).
    { intros l Hl. unfold cursorAfter.
      destruct (feedSink_software l (softwareSink i w2) w2 t0 0 Hsb Hs0)
        as (sl & El & Htl & _).
      rewrite El. cbn [fst]. rewrite Htl. cbn [softwareSink bitLength inf].
      fold len. rewrite Z.add_0_l. apply wrap64_small.
      assert (H1 : 0 <= totalBitCount i * Z.of_nat (length l)
                   <= totalBitCount i * Z.of_nat (length items)) by nia.
      assert (H2 : 0 <= len * (totalBitCount i * Z.of_nat (length l))
                   <= len * (totalBitCount i * Z.of_nat (length items)))
        by nia.
      unfold in_int64 in *. subst t0 total. lia. }
    assert (Hlen_ab : length items = (length a + length b)%nat).
    { rewrite Hab. apply length_app. }
    rewrite !Hcur by (rewrite ?length_app; lia).
    rewrite length_app, Nat2Z.inj_add.
    assert (H1 : 0 <= totalBitCount i * Z.of_nat (length a)
                 <= totalBitCount i
                    * (Z.of_nat (length a) + Z.of_nat (length b))) by nia.
    assert (H2 : 0 <= len * (totalBitCount i * Z.of_nat (length a))
                 <= len * (totalBitCount i
                           * (Z.of_nat (length a) + Z.of_nat (length b))))
      by nia.
    lia.
Qed.

End OrderClaims.

(** C4 as the specification words it fails on the concrete platform:
    after [write([65])] on a 9600 baud port on pin 5 the last two edges
    carry the same time, so the times are not strictly increasing. *)
Lemma C4_edge_times_not_strictly_increasing :
  ~ StronglySorted Z.lt
      (map ev_time
         (edges (snd (@jswrap_serial_write Reference.platform
                        (Reference.portOnPin5 9600)
                        (JsArray [JsInt 65]) (Reference.world0 0))))).
Proof.
  replace (map ev_time _)
    with [1000104; 1000208; 1000728; 1000832; 1000936; 1001040; 1001040]
    by (vm_compute; reflexivity).
  intros H.
  do 5 (apply StronglySorted_inv in H as [H _]).
  apply StronglySorted_inv in H as [_ H].
  apply Forall_inv in H. lia.
Qed.

(** The hypotheses of C4 on the concrete platform, for [write([65])]. *)
Lemma C4_edge_times_nondecreasing_witness :
  StronglySorted Z.le
    (map ev_time
       (edges (snd (@jswrap_serial_write Reference.platform
                      (Reference.portOnPin5 9600)
                      (JsArray [JsInt 65]) (Reference.world0 0))))).
Proof.
  destruct (@C4_edge_times_nondecreasing Reference.platform
              (Reference.portOnPin5 9600) (JsArray [JsInt 65]) false false
              (Reference.world0 0) (Reference.world0 0)
              (mkUSARTInfo 9600 255 5 255 8 0 1 false))
    as (frames & He & _ & _ & Hs & _).
  - reflexivity.
  - vm_compute. reflexivity.
  - reflexivity.
  - eval_bounds.
  - eval_bounds.
  - eval_bounds.
  - eval_bounds.
  - unfold jswrap_serial_write. rewrite He. exact Hs.
Defined.

(** ** A port without a transmit pin *)

Section SilentClaims.
Context `{P : Platform}.

(** Whatever the stored configuration, a write on a software port whose
    transmit pin is not valid stops after reading the configuration
    back: it leaves the world that reading produced. *)
Lemma print_unassigned_pin (parent : SerialObject) (arg : JsVar)
    (isPrint newLine : bool) (w : World) :
  DEVICE_IS_USART (device parent) = false ->
  jshIsPinValid (pinTX (fst (storedConfig parent w))) = false ->
  _jswrap_serial_print parent arg isPrint newLine w
    = (None, snd (storedConfig parent w)).
Proof.
  intros Hdev Hpin.
  unfold _jswrap_serial_print, jsiGetDeviceFromClass. rewrite Hdev.
  unfold storedConfig in *.
  destruct (_jswrap_serial_getUsartInfo _ _ w) as [i w1].
  simpl in Hpin. by rewrite Hpin.
Qed.

(** C8: a write on a software port whose stored configuration validates
    and holds no valid transmit pin returns at once and leaves the world
    as it found it: no edge is submitted, no pin is driven, nothing is
    raised, whatever the argument and the kind of call. *)
Theorem C8_unassigned_pin_is_silent (parent : SerialObject) (arg : JsVar)
    (isPrint newLine : bool) (w : World) :
  DEVICE_IS_USART (device parent) = false ->
  exceptions (snd (storedConfig parent w)) = exceptions w ->
  jshIsPinValid (pinTX (fst (storedConfig parent w))) = false ->
  _jswrap_serial_print parent arg isPrint newLine w = (None, w).
Proof.
  intros Hdev Hvalid Hpin.
  rewrite print_unassigned_pin by done. f_equal.
  destruct (getUsartInfo_errors (getChild parent USART_BAUDRATE_NAME)
              (getChild parent DEVICE_OPTIONS_NAME) w) as [errs E].
  unfold storedConfig in *. rewrite E in *. cbn [addErrors exceptions] in Hvalid.
  assert (errs = []) as ->.
  { apply (app_inv_head (exceptions w)). by rewrite app_nil_r. }
  apply addErrors_nil.
Qed.

End SilentClaims.

(** The hypotheses of C8 on the concrete platform: a port that was never
    set up. *)
Lemma C8_unassigned_pin_is_silent_witness :
  @jswrap_serial_write Reference.platform Reference.freshPort
     (JsArray [JsInt 65; JsInt 66]) (Reference.world0 0)
    = (None, Reference.world0 0).
Proof.
  apply (@C8_unassigned_pin_is_silent Reference.platform).
  - reflexivity.
  - reflexivity.
  - reflexivity.
Defined.

(** ** Frame configuration *)

Section ConfigClaims.
Context `{P : Platform}.

Lemma parityOfVar_string (s : string) : 0 <= parityOfVar (JsString s) <= 2.
Proof.
  unfold parityOfVar. simpl.
  destruct ((s =? "o")%string || (s =? "odd")%string); [lia|].
  destruct ((s =? "e")%string || (s =? "even")%string); lia.
Qed.

Lemma parityOfVar_int (n : Z) : parityOfVar (JsInt n) = wrap32 n mod 256.
Proof. reflexivity. Qed.

(** What the options part does with the parity entry: the description
    gets the normalised value, and [InvalidParity] is raised exactly
    when that value exceeds 2. *)
Lemma getUsartInfo_options_parity (kvs : list (string * JsVar))
    (i : JshUSARTInfo) (w : World) :
  exists errs,
    snd (getUsartInfo_options (JsObject kvs) i w) = addErrors errs w
    /\ parity (fst (getUsartInfo_options (JsObject kvs) i w))
       = parityOfVar (findChild "parity" kvs)
    /\ forall p, In (InvalidParity p) errs
                 <-> p = parityOfVar (findChild "parity" kvs) /\ 2 < p.
Proof.
  unfold getUsartInfo_options. cbn [jsvObjectGetChild].
  set (v := findChild "parity" kvs).
  set (i1 := if jsvIsInt (findChild "bytesize" kvs) then _ else _).
  assert (Hp : parity (set_parity (parityOfVar v) i1) = parityOfVar v)
    by reflexivity.
  rewrite Hp. destruct (2 <? parityOfVar v) eqn:Hgt.
  - apply Z.ltb_lt in Hgt. exists [InvalidParity (parityOfVar v)].
    split; [reflexivity | split; [reflexivity|]].
    intros p. simpl. split.
    + intros [H | []]. injection H as <-. done.
    + intros [-> _]. by left.
  - apply Z.ltb_ge in Hgt.
    set (i2 := if jsvIsInt (findChild "stopbits" kvs) then _ else _).
    assert (Hp2 : parity i2 = parityOfVar v).
    { subst i2. by destruct (jsvIsInt (findChild "stopbits" kvs)). }
    destruct (jsvIsUndefined _ || jsvIsNull _ || jsvIsStringEqual _ "none").
    + exists []. rewrite addErrors_nil.
      split; [reflexivity | split; [exact Hp2|]].
      intros p. simpl. split; [done | lia].
    + destruct (jsvIsStringEqual _ "xon").
      * exists []. rewrite addErrors_nil.
        split; [reflexivity | split; [exact Hp2|]].
        intros p. simpl. split; [done | lia].
      * exists [InvalidFlowControl (findChild "flow" kvs)].
        split; [reflexivity | split; [exact Hp2|]].
        intros p. simpl. split; [intros [H | []]; discriminate | lia].
Qed.

(** C7, as the code has it: the configuration step normalises the parity
    entry of the options to ["o"]/["odd"] -> 1, ["e"]/["even"] -> 2 and
    ["none"] -> 0, and an integer to its value as an [unsigned char], so
    0, 1 and 2 stay what they are; [InvalidParity] is raised exactly when
    the normalised value exceeds 2, which only an integer can bring
    about: every other string, like a missing or null entry, gives
    parity 0 and raises nothing. *)
Theorem C7_parity_forms (baud : JsVar) (kvs : list (string * JsVar))
    (w : World) :
  (parityOfVar (JsString "none") = 0
   /\ parityOfVar (JsString "o") = 1 /\ parityOfVar (JsString "odd") = 1
   /\ parityOfVar (JsString "e") = 2 /\ parityOfVar (JsString "even") = 2
   /\ parityOfVar (JsInt 0) = 0 /\ parityOfVar (JsInt 1) = 1
   /\ parityOfVar (JsInt 2) = 2
   /\ parityOfVar JsUndefined = 0 /\ parityOfVar JsNull = 0)
  /\ (forall s, s <> "o"%string -> s <> "odd"%string -> s <> "e"%string ->
                s <> "even"%string -> parityOfVar (JsString s) = 0)
  /\ (forall n, parityOfVar (JsInt n) = wrap32 n mod 256)
  /\ exists errs,
       snd (_jswrap_serial_getUsartInfo baud (JsObject kvs) w)
         = addErrors errs w
       /\ parity (fst (_jswrap_serial_getUsartInfo baud (JsObject kvs) w))
          = parityOfVar (findChild "parity" kvs)
       /\ forall p, In (InvalidParity p) errs
                    <-> p = parityOfVar (findChild "parity" kvs) /\ 2 < p.
Proof.
  split; [repeat split; reflexivity|]. split; [| split; [done|]].
  - intros s Ho Hodd He Heven. unfold parityOfVar. simpl.
    apply String.eqb_neq in Ho, Hodd, He, Heven.
    by rewrite Ho, Hodd, He, Heven.
  - unfold _jswrap_serial_getUsartInfo. cbn [jsvIsObject].
    destruct (negb (jsvIsUndefined baud));
      [destruct ((jsvGetInteger baud <=? 100)
                 || (10000000 <? jsvGetInteger baud)) |].
    + destruct (getUsartInfo_options_parity kvs jshUSARTInitInfo
                  (jsExceptionHere InvalidBaudRate w))
        as (errs & E & Hp & Hin).
      exists (InvalidBaudRate :: errs). rewrite E, Hp.
      split; [| split; [done|]].
      * by rewrite exceptionHere_addErrors, addErrors_addErrors.
      * intros p. rewrite <- Hin. simpl. split; [| by right].
        intros [H | H]; [discriminate | done].
    + apply getUsartInfo_options_parity.
    + apply getUsartInfo_options_parity.
Qed.

End ConfigClaims.

(** C7 as the specification words it fails on the concrete platform: the
    parity ["foo"] is none of the accepted forms, and configuring with it
    raises nothing and gives parity 0. *)
Lemma C7_unknown_parity_string_accepted :
  parity (fst (@_jswrap_serial_getUsartInfo Reference.platform (JsInt 9600)
                 (JsObject [("parity", JsString "foo")])
                 (Reference.world0 0))) = 0
  /\ exceptions (snd (@_jswrap_serial_getUsartInfo Reference.platform
                        (JsInt 9600)
                        (JsObject [("parity", JsString "foo")])
                        (Reference.world0 0))) = [].
Proof. split; vm_compute; reflexivity. Qed.

(** ** What [setup] leaves on the device object *)

Section SetupClaims.
Context `{P : Platform}.

Lemma getChild_setChild (parent : SerialObject) (name : string) (v : JsVar) :
  getChild (setChild parent name v) name = v.
Proof. unfold getChild, setChild. simpl. by rewrite lookup_insert_eq. Qed.

Lemma getChild_setChild_ne (parent : SerialObject) (name other : string)
    (v : JsVar) :
  name <> other ->
  getChild (setChild parent name v) other = getChild parent other.
Proof.
  intros H. unfold getChild, setChild. simpl. by rewrite lookup_insert_ne.
Qed.

Lemma getChild_removeNamedChild (parent : SerialObject) (name : string) :
  getChild (removeNamedChild parent name) name = JsUndefined.
Proof.
  unfold getChild, removeNamedChild. simpl. by rewrite lookup_delete_eq.
Qed.

Lemma getChild_removeNamedChild_ne (parent : SerialObject)
    (name other : string) :
  name <> other ->
  getChild (removeNamedChild parent name) other = getChild parent other.
Proof.
  intros H. unfold getChild, removeNamedChild. simpl.
  by rewrite lookup_delete_ne.
Qed.

(** The baud rate of the description is the one passed in when it is in
    range, and the default otherwise; the options never touch it. *)
Lemma getUsartInfo_options_baudRate (options : JsVar) (i : JshUSARTInfo)
    (w : World) :
  baudRate (fst (getUsartInfo_options options i w)) = baudRate i.
Proof.
  unfold getUsartInfo_options.
  repeat match goal with
         | |- context [if ?b then _ else _] => destruct b
         end; reflexivity.
Qed.

Lemma getUsartInfo_rejected_baud (baud options : JsVar) (w : World) :
  jsvIsUndefined baud = false ->
  jsvGetInteger baud <= 100 \/ 10000000 < jsvGetInteger baud ->
  baudRate (fst (_jswrap_serial_getUsartInfo baud options w))
    = baudRate jshUSARTInitInfo
  /\ In InvalidBaudRate
        (exceptions (snd (_jswrap_serial_getUsartInfo baud options w))).
Proof.
  intros Hdef Hrange. unfold _jswrap_serial_getUsartInfo. rewrite Hdef.
  cbn [negb].
  assert (Hb : (jsvGetInteger baud <=? 100) || (10000000 <? jsvGetInteger baud)
               = true).
  { apply orb_true_iff. destruct Hrange; [left | right]; lia. }
  rewrite Hb. destruct (jsvIsObject options).
  - rewrite getUsartInfo_options_baudRate. split; [done|].
    destruct (getUsartInfo_options_errors options jshUSARTInitInfo
                (jsExceptionHere InvalidBaudRate w)) as [errs E].
    rewrite E. simpl. rewrite !in_app_iff. left. right. by left.
  - split; [done|]. simpl. rewrite in_app_iff. right. by left.
Qed.

(** Whatever the device, [setup] ends by writing the baud rate of the
    description and the options it was given onto the object. *)
Lemma setup_children (parent : SerialObject) (baud options : JsVar)
    (w : World) :
  USART_BAUDRATE_NAME <> DEVICE_OPTIONS_NAME ->
  getChild (fst (jswrap_serial_setup parent baud options w))
           USART_BAUDRATE_NAME
    = JsInt (baudRate (fst (_jswrap_serial_getUsartInfo baud options w)))
  /\ getChild (fst (jswrap_serial_setup parent baud options w))
              DEVICE_OPTIONS_NAME
     = options.
Proof.
  intros Hne. unfold jswrap_serial_setup.
  destruct (_jswrap_serial_getUsartInfo baud options w) as [i w1].
  destruct (DEVICE_IS_USART (jsiGetDeviceFromClass parent));
    destruct options; cbn [jsvIsUndefined negb fst];
    rewrite ?getChild_setChild, ?getChild_removeNamedChild,
      ?getChild_setChild_ne, ?getChild_removeNamedChild_ne,
      ?getChild_setChild by done;
    done.
Qed.

(** C5 on the code: with a baud value out of range, [setup] raises
    [InvalidBaudRate] as the claim says, and then stores the default baud
    rate of [jshUSARTInitInfo] on the device object all the same,
    whatever rate was stored before: the stored rate is left unchanged
    only when it was the default already. *)
Theorem C5_rejected_baud_overwrites_stored_rate (parent : SerialObject)
    (baud options : JsVar) (w : World) :
  USART_BAUDRATE_NAME <> DEVICE_OPTIONS_NAME ->
  jsvIsUndefined baud = false ->
  jsvGetInteger baud <= 100 \/ 10000000 < jsvGetInteger baud ->
  getChild (fst (jswrap_serial_setup parent baud options w))
           USART_BAUDRATE_NAME
    = JsInt (baudRate jshUSARTInitInfo)
  /\ In InvalidBaudRate
        (exceptions (snd (jswrap_serial_setup parent baud options w))).
Proof.
  intros Hne Hdef Hrange.
  destruct (setup_children parent baud options w Hne) as [Hb _].
  destruct (getUsartInfo_rejected_baud baud options w Hdef Hrange)
    as [Hrate Hraised].
  rewrite Hb, Hrate. split; [done|].
  unfold jswrap_serial_setup.
  destruct (_jswrap_serial_getUsartInfo baud options w) as [i w1].
  simpl in Hraised.
  destruct (DEVICE_IS_USART (jsiGetDeviceFromClass parent));
    destruct (negb (jsvIsUndefined options)); exact Hraised.
Qed.

(** C6, as the code has it: [setup] with a baud rate in range and no
    options stores that rate and removes the options stored before; a
    write that follows reads back the defaults of [jshUSARTInitInfo] for
    the pins, the parity and the stop bits, with the new rate. *)
Theorem C6_setup_without_options_drops_stored_options
    (parent : SerialObject) (b : Z) (w : World) :
  100 < b <= 10000000 ->
  USART_BAUDRATE_NAME <> DEVICE_OPTIONS_NAME ->
  getChild (fst (jswrap_serial_setup parent (JsInt b) JsUndefined w))
           DEVICE_OPTIONS_NAME
    = JsUndefined
  /\ getChild (fst (jswrap_serial_setup parent (JsInt b) JsUndefined w))
              USART_BAUDRATE_NAME
     = JsInt b
  /\ exceptions (snd (jswrap_serial_setup parent (JsInt b) JsUndefined w))
     = exceptions w
  /\ forall w',
       storedConfig (fst (jswrap_serial_setup parent (JsInt b) JsUndefined w))
                    w'
         = (set_baudRate b jshUSARTInitInfo, w').
Proof.
  intros Hb Hne.
  assert (Hw : wrap32 b = b) by (apply wrap32_small; unfold in_int32; lia).
  assert (Hcfg : forall w0,
            _jswrap_serial_getUsartInfo (JsInt b) JsUndefined w0
            = (set_baudRate b jshUSARTInitInfo, w0)).
  { intros w0. unfold _jswrap_serial_getUsartInfo. simpl. rewrite Hw.
    replace ((b <=? 100) || (10000000 <? b)) with false; [done|].
    symmetry. apply orb_false_iff. split; lia. }
  destruct (setup_children parent (JsInt b) JsUndefined w Hne)
    as [Hrate Hopts].
  rewrite Hcfg in Hrate. simpl in Hrate.
  split; [done | split; [done | split]].
  - unfold jswrap_serial_setup. rewrite Hcfg.
    by destruct (DEVICE_IS_USART (jsiGetDeviceFromClass parent)).
  - intros w'. unfold storedConfig. rewrite Hrate, Hopts. apply Hcfg.
Qed.

End SetupClaims.

(** C6 as the specification words it fails on the concrete platform: a
    port set up with [{tx: 5, parity: "odd", stopbits: 2}] reads back pin
    5, parity 1 and 2 stop bits; after [setup(19200)] it reads back no
    pin, parity 0 and 1 stop bit. *)
Lemma C6_setup_without_options_loses_stored_options :
  fst (@storedConfig Reference.platform Reference.configuredPort
         (Reference.world0 0))
    = mkUSARTInfo 9600 255 5 255 8 1 2 false
  /\ fst (@storedConfig Reference.platform
            (fst (@jswrap_serial_setup Reference.platform
                    Reference.configuredPort (JsInt 19200) JsUndefined
                    (Reference.world0 0)))
            (Reference.world0 0))
     = mkUSARTInfo 19200 255 255 255 8 0 1 false.
Proof. split; vm_compute; reflexivity. Qed.

(** The hypotheses of C6 on the concrete platform. *)
Lemma C6_setup_without_options_drops_stored_options_witness :
  @getChild Reference.platform
     (fst (@jswrap_serial_setup Reference.platform Reference.configuredPort
             (JsInt 19200) JsUndefined (Reference.world0 0)))
     "options"
    = JsUndefined.
Proof.
  destruct (@C6_setup_without_options_drops_stored_options
              Reference.platform Reference.configuredPort 19200
              (Reference.world0 0)) as [H _].
  - lia.
  - discriminate.
  - exact H.
Defined.

(** The hypotheses of C5 on the concrete platform: a port that stores
    115200 baud is set up with 50; the call raises [InvalidBaudRate] and
    leaves 9600, the default, as the stored rate. *)
Lemma C5_rejected_baud_overwrites_stored_rate_witness :
  @getChild Reference.platform (Reference.portOnPin5 115200) "baudrate"
    = JsInt 115200
  /\ @getChild Reference.platform
        (fst (@jswrap_serial_setup Reference.platform
                (Reference.portOnPin5 115200) (JsInt 50) JsUndefined
                (Reference.world0 0)))
        "baudrate"
     = JsInt 9600
  /\ In InvalidBaudRate
        (exceptions (snd (@jswrap_serial_setup Reference.platform
                            (Reference.portOnPin5 115200) (JsInt 50)
                            JsUndefined (Reference.world0 0)))).
Proof.
  split; [reflexivity|].
  apply (@C5_rejected_baud_overwrites_stored_rate Reference.platform).
  - discriminate.
  - reflexivity.
  - left. eval_bounds.
Defined.

(** ** The composite pattern *)

Section PatternClaims.
Context `{P : Platform}.

(** With the 8 data bits line 243 imposes and at most 22 stop bits (so
    that the pattern fits an [int]), the pattern the encoder builds is
    the one section 4.4 describes for a bit width of 8. *)
Lemma frameBits_matches_spec (data : Z) (i : JshUSARTInfo) (k : Z) :
  0 <= stopbits i <= 22 ->
  0 <= k < totalBitCount i ->
  Z.testbit (fst (frameBits data (set_bytesize 8 i))) k
    = specFrameBit 8 (stopbits i) data k.
Proof.
  intros Hsb Hk. unfold frameBits, totalBitCount in *.
  cbn [fst bytesize stopbits set_bytesize].
  change (sub32 (shl32 1 8) 1) with (Z.ones 8).
  change (add32 1 8) with 9.
  assert (Hpow : 1 <= 2 ^ stopbits i <= 2 ^ 22).
  { pose proof (Z.pow_pos_nonneg 2 (stopbits i) ltac:(lia) ltac:(lia)).
    split; [lia | apply Z.pow_le_mono_r; lia]. }
  assert (Hm : 0 <= Z.land data (Z.ones 8) < 256).
  { rewrite Z.land_ones by lia. apply Z.mod_pos_bound. lia. }
  assert (E1 : shl32 (Z.land data (Z.ones 8)) 1
               = Z.shiftl (Z.land data (Z.ones 8)) 1).
  { unfold shl32. apply wrap32_small. unfold in_int32.
    rewrite Z.shiftl_mul_pow2 by lia. lia. }
  assert (E2 : sub32 (shl32 1 (stopbits i)) 1 = Z.ones (stopbits i)).
  { unfold sub32, shl32. rewrite Z.shiftl_mul_pow2, Z.mul_1_l by lia.
    rewrite (wrap32_small (2 ^ stopbits i)) by (unfold in_int32; lia).
    rewrite wrap32_small by (unfold in_int32; lia).
    rewrite Z.ones_equiv. lia. }
  assert (E3 : shl32 (Z.ones (stopbits i)) 9
               = Z.shiftl (Z.ones (stopbits i)) 9).
  { unfold shl32. apply wrap32_small. unfold in_int32.
    rewrite Z.shiftl_mul_pow2, Z.ones_equiv by lia. lia. }
  rewrite E1, E2, E3, Z.lor_spec, !Z.shiftl_spec, Z.land_spec by lia.
  rewrite !Z.testbit_ones by lia.
  unfold specFrameBit.
  destruct (Z.eqb_spec k 0) as [-> | Hk0].
  - rewrite Z.testbit_neg_r by lia. reflexivity.
  - destruct (Z.leb_spec k 8).
    + replace (0 <=? k - 1) with true by (symmetry; apply Z.leb_le; lia).
      replace (k - 1 <? 8) with true by (symmetry; apply Z.ltb_lt; lia).
      replace (0 <=? k - 9) with false by (symmetry; apply Z.leb_gt; lia).
      by rewrite andb_true_r, orb_false_r.
    + replace (k - 1 <? 8) with false by (symmetry; apply Z.ltb_ge; lia).
      replace (0 <=? k - 9) with true by (symmetry; apply Z.leb_le; lia).
      replace (k - 9 <? stopbits i) with true
        by (symmetry; apply Z.ltb_lt; lia).
      replace (k <=? 8 + stopbits i) with true
        by (symmetry; apply Z.leb_le; lia).
      by rewrite andb_false_r, andb_false_r.
Qed.

(** C1 on the code: the bit width of the configuration never reaches the
    frame, since line 243 sets it to 8 before the pattern is built: the
    encoder does the same for every configured bit width [b].  So a sink
    configured for 7 data bits and 1 stop bit, for which section 4.4 asks
    for the nine bits 0,1,0,0,0,0,0,1,1 of the byte 0x41 (bit 8 the stop
    bit), frames the ten bits 0,1,0,0,0,0,0,1,0,1 (bit 8 the eighth data
    bit, logic 0), emits six edges and moves the cursor by ten bit
    lengths. *)
Theorem C1_configured_bit_width_is_overridden (data b : Z)
    (s : SWSerialStruct) (w : World) :
  _jswrap_serial_print_sw data
      (mkSWSerial (set_bytesize b (inf s)) (time s) (bitLength s)) w
    = _jswrap_serial_print_sw data
        (mkSWSerial (set_bytesize 8 (inf s)) (time s) (bitLength s)) w
  /\ specBitCount 7 1 = 9
  /\ specFrameBit 7 1 65 8 = true
  /\ frameBits 65 (set_bytesize 8 (mkUSARTInfo 9600 255 5 255 7 0 1 false))
     = (642, 10)
  /\ Z.testbit 642 8 = false
  /\ _jswrap_serial_print_sw 65
        (mkSWSerial (mkUSARTInfo 9600 255 5 255 7 0 1 false) 0 104)
        (mkWorld 0 [] [] [] [] [] [])
     = (mkSWSerial (mkUSARTInfo 9600 255 5 255 8 0 1 false) (104 * 10) 104,
        mkWorld 0 []
          [mkEdge 104 5 0; mkEdge 208 5 1; mkEdge 728 5 0; mkEdge 832 5 1;
           mkEdge 936 5 0; mkEdge 1040 5 1]
          [] [mkConsoleLine debugFormat [104]] [] []).
Proof.
  split; [reflexivity|]. repeat split; vm_compute; reflexivity.
Qed.

End PatternClaims.

(** * Further properties of the code *)

(** ** The hardware sink *)

Section HardwareSinkFacts.
Context `{P : Platform}.

Lemma addTransmitted_nil (w : World) : addTransmitted [] w = w.
Proof. destruct w. unfold addTransmitted. simpl. by rewrite app_nil_r. Qed.

Lemma feedSink_hardware (items : list Z) :
  forall (d : IOEventFlags) (w : World),
    feedSink items (HardwareSink d) w
      = (HardwareSink d,
         addTransmitted (map (fun x => (d, to_uchar x)) items) w).
Proof.
  induction items as [|x rest IH]; intros d w.
  - simpl. by rewrite addTransmitted_nil.
  - cbn [feedSink callSink]. rewrite IH. f_equal.
    unfold addTransmitted, _jswrap_serial_print_hw, jshTransmit. simpl.
    by rewrite <- app_assoc.
Qed.

(** On a hardware USART a print or write hands every item to
    [jshTransmit] as an [unsigned char], in order, the carriage return
    and line feed of [println] last, and does nothing else: it schedules
    no edge, drives no pin, prints nothing and raises nothing, and it does
    not read the stored configuration. *)
Theorem hardware_call_transmits_items (parent : SerialObject) (arg : JsVar)
    (isPrint newLine : bool) (w : World) :
  DEVICE_IS_USART (device parent) = true ->
  _jswrap_serial_print parent arg isPrint newLine w
    = (Some (HardwareSink (device parent)),
       addTransmitted
         (map (fun x => (device parent, to_uchar x))
              (callItems arg isPrint newLine))
         w).
Proof.
  intros Hdev. unfold _jswrap_serial_print, jsiGetDeviceFromClass.
  rewrite Hdev, printWith_feed, feedSink_hardware. reflexivity.
Qed.

End HardwareSinkFacts.

(** [Serial1.write([65, "A"])] on the concrete platform transmits 65
    twice. *)
Lemma hardware_call_transmits_items_witness :
  @jswrap_serial_write Reference.platform Reference.serial1
     (JsArray [JsInt 65; JsString "A"]) (Reference.world0 0)
    = (Some (@HardwareSink Reference.platform Reference.EV_SERIAL1),
       @mkWorld Reference.platform 0 [] [] [] []
         [(Reference.EV_SERIAL1, 65); (Reference.EV_SERIAL1, 65)] []).
Proof.
  unfold jswrap_serial_write.
  rewrite (@hardware_call_transmits_items Reference.platform)
    by reflexivity.
  reflexivity.
Defined.

(** ** The shape of one frame *)

Section FrameShapeFacts.
Context `{P : Platform}.

Lemma land_1_bit (x : Z) : Z.land x 1 = Z.b2z (Z.testbit x 0).
Proof.
  change 1 with (Z.ones 1) at 1. rewrite Z.land_ones by lia.
  rewrite Z.bit0_mod. reflexivity.
Qed.

Lemma land_1_cases (x : Z) : Z.land x 1 = 0 \/ Z.land x 1 = 1.
Proof. rewrite land_1_bit. destruct (Z.testbit x 0); simpl; lia. Qed.

(** While a run is open, the next edge holds the level of that run. *)
Lemma runOffsets_head (n : nat) :
  forall bitData bVal bCnt pos : Z,
    0 < bCnt ->
    exists k rest, runOffsets n bitData bVal bCnt pos = (k, bVal) :: rest.
Proof.
  induction n as [|n IH]; intros bitData bVal bCnt pos Hc.
  - by exists (pos + bCnt), [].
  - simpl runOffsets.
    destruct (negb (bCnt =? 0) && negb (bVal =? Z.land bitData 1)) eqn:E.
    + by eexists _, _.
    + apply andb_false_iff in E as [E | E].
      * apply negb_false_iff, Z.eqb_eq in E. lia.
      * apply negb_false_iff, Z.eqb_eq in E. rewrite <- E.
        apply IH. lia.
Qed.

Lemma runOffsets_alternate (n : nat) :
  forall bitData bVal bCnt pos : Z,
    0 <= bCnt ->
    Sorted (fun a b : Z => a <> b)
           (map snd (runOffsets n bitData bVal bCnt pos)).
Proof.
  induction n as [|n IH]; intros bitData bVal bCnt pos Hc.
  - simpl. repeat constructor.
  - simpl runOffsets.
    destruct (negb (bCnt =? 0) && negb (bVal =? Z.land bitData 1)) eqn:E.
    + apply andb_true_iff in E as [_ E].
      apply negb_true_iff, Z.eqb_neq in E.
      destruct (runOffsets_head n (Z.shiftr bitData 1) (Z.land bitData 1) 1
                  (pos + bCnt) ltac:(lia)) as (k & rest & Eh).
      pose proof (IH (Z.shiftr bitData 1) (Z.land bitData 1) 1 (pos + bCnt)
                    ltac:(lia)) as Hs.
      rewrite Eh in *. simpl in *. constructor; [done|].
      constructor. done.
    + apply IH. lia.
Qed.

Lemma runOffsets_levels (n : nat) :
  forall bitData bVal bCnt pos : Z,
    0 <= bCnt ->
    (bCnt = 0 -> (0 < n)%nat) ->
    (bCnt <> 0 -> bVal = 0 \/ bVal = 1) ->
    Forall (fun e => snd e = 0 \/ snd e = 1)
           (runOffsets n bitData bVal bCnt pos).
Proof.
  induction n as [|n IH]; intros bitData bVal bCnt pos Hc Hn Hv.
  - simpl. constructor; [| constructor]. simpl. apply Hv.
    intros ->. specialize (Hn eq_refl). lia.
  - simpl runOffsets.
    destruct (negb (bCnt =? 0) && negb (bVal =? Z.land bitData 1)) eqn:E.
    + apply andb_true_iff in E as [E _].
      apply negb_true_iff, Z.eqb_neq in E.
      constructor; [simpl; by apply Hv|].
      apply IH; [lia | lia | intros _; apply land_1_cases].
    + apply IH; [lia | lia | intros _; apply land_1_cases].
Qed.

(** Each pass emits at most one edge, and the first pass of a byte
    none. *)
Lemma runOffsets_length_open (n : nat) :
  forall bitData bVal bCnt pos : Z,
    (1 <= length (runOffsets n bitData bVal bCnt pos) <= S n)%nat.
Proof.
  induction n as [|n IH]; intros bitData bVal bCnt pos.
  - simpl. lia.
  - simpl runOffsets.
    destruct (negb (bCnt =? 0) && negb (bVal =? Z.land bitData 1)).
    + pose proof (IH (Z.shiftr bitData 1) (Z.land bitData 1) 1 (pos + bCnt)).
      simpl length. lia.
    + pose proof (IH (Z.shiftr bitData 1) (Z.land bitData 1) (bCnt + 1) pos).
      lia.
Qed.

Lemma runOffsets_length_start (n : nat) (bitData bVal pos : Z) :
  (0 < n)%nat ->
  (1 <= length (runOffsets n bitData bVal 0 pos) <= n)%nat.
Proof.
  intros Hn. destruct n as [|n]; [lia|]. simpl runOffsets.
  apply runOffsets_length_open.
Qed.

(** The first edge of a byte holds bit 0 of the pattern, the last edge
    its top bit. *)
Lemma runOffsets_first_level (n : nat) (bitData bVal pos : Z) :
  (0 < n)%nat ->
  exists k rest,
    runOffsets n bitData bVal 0 pos = (k, Z.land bitData 1) :: rest.
Proof.
  intros Hn. destruct n as [|n]; [lia|]. simpl runOffsets.
  apply runOffsets_head. lia.
Qed.

Lemma runOffsets_last_level (n : nat) :
  forall bitData bVal bCnt pos : Z,
    exists front,
      runOffsets (S n) bitData bVal bCnt pos
        = front ++ [(pos + bCnt + Z.of_nat (S n),
                     Z.land (Z.shiftr bitData (Z.of_nat n)) 1)].
Proof.
  induction n as [|n IH]; intros bitData bVal bCnt pos.
  - simpl runOffsets. rewrite Z.shiftr_0_r.
    destruct (negb (bCnt =? 0) && negb (bVal =? Z.land bitData 1)).
    + exists [(pos + bCnt, bVal)].
      replace (pos + bCnt + Z.of_nat 1) with (pos + bCnt + 1) by lia.
      reflexivity.
    + exists [].
      replace (pos + bCnt + Z.of_nat 1) with (pos + (bCnt + 1)) by lia.
      reflexivity.
  - assert (Hshift : forall x, Z.shiftr (Z.shiftr x 1) (Z.of_nat n)
                               = Z.shiftr x (Z.of_nat (S n))).
    { intros x. rewrite Z.shiftr_shiftr by lia. f_equal. lia. }
    change (runOffsets (S (S n)) bitData bVal bCnt pos)
      with (let v := Z.land bitData 1 in
            if negb (bCnt =? 0) && negb (bVal =? v)
            then (pos + bCnt, bVal)
                   :: runOffsets (S n) (Z.shiftr bitData 1) v 1 (pos + bCnt)
            else runOffsets (S n) (Z.shiftr bitData 1) v (bCnt + 1) pos).
    cbn zeta.
    destruct (negb (bCnt =? 0) && negb (bVal =? Z.land bitData 1)).
    + destruct (IH (Z.shiftr bitData 1) (Z.land bitData 1) 1 (pos + bCnt))
        as [front E].
      exists ((pos + bCnt, bVal) :: front). rewrite E, Hshift.
      replace (pos + bCnt + 1 + Z.of_nat (S n))
        with (pos + bCnt + Z.of_nat (S (S n))) by lia.
      reflexivity.
    + destruct (IH (Z.shiftr bitData 1) (Z.land bitData 1) (bCnt + 1) pos)
        as [front E].
      exists front. rewrite E, Hshift.
      replace (pos + (bCnt + 1) + Z.of_nat (S n))
        with (pos + bCnt + Z.of_nat (S (S n))) by lia.
      reflexivity.
Qed.

End FrameShapeFacts.

Section FrameShapeClaims.
Context `{P : Platform}.

Lemma print_sw_edges (data : Z) (s : SWSerialStruct) (w : World) :
  0 <= stopbits (inf s) < 256 ->
  edges (snd (_jswrap_serial_print_sw data s w))
    = edges w ++ map (edgeAt (time s) (bitLength s) (pinTX (inf s)))
                     (frameOffsets data (inf s) 0)
  /\ time (fst (_jswrap_serial_print_sw data s w))
     = wrap64 (time s + bitLength s * totalBitCount (inf s)).
Proof.
  intros Hsb.
  rewrite (print_sw_offsets data s w (time s) 0 Hsb) by (f_equal; lia).
  split; [reflexivity|]. simpl. f_equal.
Qed.

Lemma frameOffsets_run (data : Z) (i : JshUSARTInfo) (pos : Z) :
  0 <= stopbits i < 256 ->
  frameOffsets data i pos
    = runOffsets (S (Z.to_nat (8 + stopbits i)))
                 (fst (frameBits data (set_bytesize 8 i))) (-1) 0 pos.
Proof.
  intros Hsb. unfold frameOffsets.
  pose proof (frameBits_count data i Hsb) as Hc.
  destruct (frameBits data (set_bytesize 8 i)) as [bitData bitCount].
  cbn [fst snd] in *. subst bitCount.
  replace (Z.to_nat (totalBitCount i)) with (S (Z.to_nat (8 + stopbits i)))
    by (unfold totalBitCount; lia).
  reflexivity.
Qed.

(** One byte costs at least one and at most [1 + 8 + stopbits] calls of
    [jstPinOutputAtTime]: one for each run of equal bits, never one a
    bit more. *)
Theorem frame_edge_count (data : Z) (s : SWSerialStruct) (w : World) :
  0 <= stopbits (inf s) < 256 ->
  exists es,
    edges (snd (_jswrap_serial_print_sw data s w)) = edges w ++ es
    /\ 1 <= Z.of_nat (length es) <= 1 + 8 + stopbits (inf s).
Proof.
  intros Hsb. destruct (print_sw_edges data s w Hsb) as [He _].
  eexists. split; [exact He|]. rewrite length_map, frameOffsets_run by done.
  pose proof (runOffsets_length_start (S (Z.to_nat (8 + stopbits (inf s))))
                (fst (frameBits data (set_bytesize 8 (inf s)))) (-1) 0
                ltac:(lia)).
  lia.
Qed.

(** Every edge of a byte is scheduled on the transmit pin with level 0
    or 1 (the initial [bVal = -1] is never sent), and two edges in a row
    never hold the same level. *)
Theorem frame_levels_alternate (data : Z) (s : SWSerialStruct) (w : World) :
  0 <= stopbits (inf s) < 256 ->
  exists es,
    edges (snd (_jswrap_serial_print_sw data s w)) = edges w ++ es
    /\ Forall (fun e => ev_pin e = pinTX (inf s)
                        /\ (ev_level e = 0 \/ ev_level e = 1)) es
    /\ Sorted (fun a b : Z => a <> b) (map ev_level es).
Proof.
  intros Hsb. destruct (print_sw_edges data s w Hsb) as [He _].
  eexists. split; [exact He|]. rewrite frameOffsets_run by done. split.
  - apply List.Forall_map.
    eapply List.Forall_impl;
      [| apply runOffsets_levels; [lia | lia | intros H; by destruct H]].
    intros e Hl. simpl. split; [reflexivity | exact Hl].
  - rewrite map_map.
    apply (runOffsets_alternate (S _) _ (-1) 0 0). lia.
Qed.

(** With 1 to 22 stop bits (the patterns that fit an [int]) the first
    edge of every byte holds logic 0, the start bit, and the last edge
    holds logic 1, the idle level, at the cursor the byte leaves behind;
    so every byte costs at least two edges. *)
Theorem frame_starts_low_ends_high (data : Z) (s : SWSerialStruct)
    (w : World) :
  1 <= stopbits (inf s) <= 22 ->
  exists k mid,
    edges (snd (_jswrap_serial_print_sw data s w))
      = edges w
          ++ mkEdge (wrap64 (time s + bitLength s * k)) (pinTX (inf s)) 0
          :: mid
          ++ [mkEdge (time (fst (_jswrap_serial_print_sw data s w)))
                     (pinTX (inf s)) 1].
Proof.
  intros Hsb.
  assert (Hsb' : 0 <= stopbits (inf s) < 256) by lia.
  destruct (print_sw_edges data s w Hsb') as [He Ht].
  rewrite He, Ht, frameOffsets_run by done.
  set (bitData := fst (frameBits data (set_bytesize 8 (inf s)))).
  set (m := Z.to_nat (8 + stopbits (inf s))).
  assert (Hfirst : Z.land bitData 1 = 0).
  { rewrite land_1_bit. subst bitData.
    rewrite frameBits_matches_spec by (unfold totalBitCount; lia).
    reflexivity. }
  assert (Hlast : Z.land (Z.shiftr bitData (Z.of_nat m)) 1 = 1).
  { rewrite land_1_bit, Z.shiftr_spec by lia. subst bitData m.
    rewrite frameBits_matches_spec by (unfold totalBitCount; lia).
    unfold specFrameBit.
    replace (0 + Z.of_nat (Z.to_nat (8 + stopbits (inf s))))
      with (8 + stopbits (inf s)) by lia.
    replace (8 + stopbits (inf s) =? 0) with false
      by (symmetry; apply Z.eqb_neq; lia).
    replace (8 + stopbits (inf s) <=? 8) with false
      by (symmetry; apply Z.leb_gt; lia).
    by rewrite Z.leb_refl. }
  destruct (runOffsets_first_level (S m) bitData (-1) 0 ltac:(lia))
    as (k & rest & Ef).
  destruct (runOffsets_last_level m bitData (-1) 0 0) as [front El].
  rewrite Hfirst in Ef. rewrite Hlast in El.
  assert (Hpos : 0 + 0 + Z.of_nat (S m) = totalBitCount (inf s))
    by (subst m; unfold totalBitCount; lia).
  rewrite Hpos in El.
  destruct front as [|x mid].
  - rewrite Ef in El. simpl in El. congruence.
  - rewrite Ef in El. simpl in El. injection El as Ex Erest.
    exists k, (map (edgeAt (time s) (bitLength s) (pinTX (inf s))) mid).
    rewrite Ef, Erest. simpl. rewrite map_app. reflexivity.
Qed.

(** The encoder sends the low eight bits of an item and nothing else of
    it; the hardware sink does the same, so for either sink an item and
    its remainder modulo 256 have the same effect. *)
Theorem sinks_send_low_eight_bits (x : Z) (k : Sink) (w : World) :
  callSink (x mod 256) k w = callSink x k w.
Proof.
  destruct k as [d | s]; cbn [callSink].
  - unfold _jswrap_serial_print_hw, to_uchar. by rewrite Zmod_mod.
  - assert (E : forall i, frameBits (x mod 256) (set_bytesize 8 i)
                          = frameBits x (set_bytesize 8 i)).
    { intros i. unfold frameBits. cbn [bytesize set_bytesize].
      change (sub32 (shl32 1 8) 1) with (Z.ones 8).
      rewrite !Z.land_ones by lia. change (2 ^ 8) with 256.
      by rewrite Zmod_mod. }
    unfold _jswrap_serial_print_sw. by rewrite E.
Qed.

Lemma print_sw_same_waveform (data : Z) (s s' : SWSerialStruct)
    (w : World) :
  pinTX (inf s') = pinTX (inf s) ->
  stopbits (inf s') = stopbits (inf s) ->
  time s' = time s ->
  bitLength s' = bitLength s ->
  snd (_jswrap_serial_print_sw data s' w)
    = snd (_jswrap_serial_print_sw data s w)
  /\ pinTX (inf (fst (_jswrap_serial_print_sw data s' w)))
     = pinTX (inf (fst (_jswrap_serial_print_sw data s w)))
  /\ stopbits (inf (fst (_jswrap_serial_print_sw data s' w)))
     = stopbits (inf (fst (_jswrap_serial_print_sw data s w)))
  /\ time (fst (_jswrap_serial_print_sw data s' w))
     = time (fst (_jswrap_serial_print_sw data s w))
  /\ bitLength (fst (_jswrap_serial_print_sw data s' w))
     = bitLength (fst (_jswrap_serial_print_sw data s w)).
Proof.
  destruct s as [i t len], s' as [i' t' len'].
  destruct i, i'. simpl. intros -> -> -> ->.
  unfold _jswrap_serial_print_sw, frameBits. simpl. repeat split.
Qed.

Lemma feedSink_same_waveform (items : list Z) :
  forall (s s' : SWSerialStruct) (w : World),
    pinTX (inf s') = pinTX (inf s) ->
    stopbits (inf s') = stopbits (inf s) ->
    time s' = time s ->
    bitLength s' = bitLength s ->
    exists s2 s2',
      fst (feedSink items (SoftwareSink s) w) = SoftwareSink s2
      /\ fst (feedSink items (SoftwareSink s') w) = SoftwareSink s2'
      /\ snd (feedSink items (SoftwareSink s') w)
         = snd (feedSink items (SoftwareSink s) w)
      /\ time s2' = time s2.
Proof.
  induction items as [|x rest IH]; intros s s' w Hp Hs Ht Hl.
  - by exists s, s'.
  - destruct (print_sw_same_waveform x s s' w Hp Hs Ht Hl)
      as (Ew & Hp1 & Hs1 & Ht1 & Hl1).
    cbn [feedSink callSink].
    destruct (_jswrap_serial_print_sw x s' w) as [s1' w1'].
    destruct (_jswrap_serial_print_sw x s w) as [s1 w1].
    cbn [fst snd] in *. subst w1'.
    apply (IH s1 s1' w1 Hp1 Hs1 Ht1 Hl1).
Qed.

(** The waveform of a run of bytes depends on the description only
    through the transmit pin and the stop bits: the configured bit width,
    the parity, the flow control, the baud rate field and the other pins
    never reach the scheduler or the cursor (the bit length is fixed when
    the call starts). *)
Theorem waveform_reads_pin_and_stopbits (items : list Z)
    (s s' : SWSerialStruct) (w : World) :
  pinTX (inf s') = pinTX (inf s) ->
  stopbits (inf s') = stopbits (inf s) ->
  time s' = time s ->
  bitLength s' = bitLength s ->
  snd (feedSink items (SoftwareSink s') w)
    = snd (feedSink items (SoftwareSink s) w)
  /\ cursorAfter items s' w = cursorAfter items s w.
Proof.
  intros Hp Hs Ht Hl.
  destruct (feedSink_same_waveform items s s' w Hp Hs Ht Hl)
    as (s2 & s2' & E & E' & Ew & Ht2).
  unfold cursorAfter. rewrite E, E'. done.
Qed.

End FrameShapeClaims.

(** The frame of 0x41 on the concrete platform has six edges, between 1
    and 10. *)
Lemma frame_edge_count_witness :
  exists es,
    edges (snd (@_jswrap_serial_print_sw Reference.platform 65
                  (Reference.sink9600 0) (Reference.world0 0)))
      = [] ++ es
    /\ 1 <= Z.of_nat (length es) <= 1 + 8 + 1.
Proof.
  apply (@frame_edge_count Reference.platform 65 (Reference.sink9600 0)
           (Reference.world0 0)).
  eval_bounds.
Defined.

Lemma frame_levels_alternate_witness :
  exists es,
    edges (snd (@_jswrap_serial_print_sw Reference.platform 65
                  (Reference.sink9600 0) (Reference.world0 0)))
      = [] ++ es
    /\ Forall (fun e => ev_pin e = 5 /\ (ev_level e = 0 \/ ev_level e = 1)) es
    /\ Sorted (fun a b : Z => a <> b) (map ev_level es).
Proof.
  apply (@frame_levels_alternate Reference.platform 65 (Reference.sink9600 0)
           (Reference.world0 0)).
  eval_bounds.
Defined.

Lemma frame_starts_low_ends_high_witness :
  exists k mid,
    edges (snd (@_jswrap_serial_print_sw Reference.platform 0
                  (Reference.sink9600 0) (Reference.world0 0)))
      = [] ++ mkEdge (wrap64 (0 + 104 * k)) 5 0 :: mid ++ [mkEdge 1040 5 1].
Proof.
  apply (@frame_starts_low_ends_high Reference.platform 0
           (Reference.sink9600 0) (Reference.world0 0)).
  eval_bounds.
Defined.

(** Two sinks on pin 5 with 1 stop bit, one described as 8 bits without
    parity and one as 5 bits with even parity and flow control, schedule
    the same edges for the bytes 65 and 66. *)
Lemma waveform_reads_pin_and_stopbits_witness :
  snd (@feedSink Reference.platform [65; 66]
         (SoftwareSink (mkSWSerial (mkUSARTInfo 300 1 5 2 5 2 1 true) 0 104))
         (Reference.world0 0))
    = snd (@feedSink Reference.platform [65; 66]
             (SoftwareSink (Reference.sink9600 0)) (Reference.world0 0)).
Proof.
  apply (@waveform_reads_pin_and_stopbits Reference.platform [65; 66]
           (Reference.sink9600 0)
           (mkSWSerial (mkUSARTInfo 300 1 5 2 5 2 1 true) 0 104)
           (Reference.world0 0)); reflexivity.
Defined.

(** ** What the configuration step accepts *)

Section ConfigFacts.
Context `{P : Platform}.

(** The options part raises at most one error, for the parity or for the
    flow control. *)
Lemma getUsartInfo_options_cases (options : JsVar) (i : JshUSARTInfo)
    (w : World) :
  exists errs,
    snd (getUsartInfo_options options i w) = addErrors errs w
    /\ (errs = []
        \/ (exists p, errs = [InvalidParity p])
        \/ (exists v, errs = [InvalidFlowControl v])).
Proof.
  unfold getUsartInfo_options.
  repeat match goal with
         | |- context [if ?b then _ else _] => destruct b
         end; simpl;
    first [ exists []; rewrite addErrors_nil; split; [done | by left]
          | eexists [_]; split; [reflexivity | right; eauto] ].
Qed.

Lemma getUsartInfo_options_world (options : JsVar) (i : JshUSARTInfo)
    (w w' : World) :
  fst (getUsartInfo_options options i w)
    = fst (getUsartInfo_options options i w').
Proof.
  unfold getUsartInfo_options.
  repeat match goal with
         | |- context [if ?b then _ else _] => destruct b
         end; reflexivity.
Qed.

(** The description does not depend on the state of the interpreter. *)
Lemma getUsartInfo_world (baud options : JsVar) (w w' : World) :
  fst (_jswrap_serial_getUsartInfo baud options w)
    = fst (_jswrap_serial_getUsartInfo baud options w').
Proof.
  unfold _jswrap_serial_getUsartInfo.
  destruct (negb (jsvIsUndefined baud));
    [destruct ((jsvGetInteger baud <=? 100)
               || (10000000 <? jsvGetInteger baud)) |];
    destruct (jsvIsObject options); try reflexivity;
    apply getUsartInfo_options_world.
Qed.

(** The baud rate check, exactly: a value that is present is read as an
    [int]; it is taken when it lies in (100, 10000000], and otherwise
    [InvalidBaudRate] is raised and the default rate stays.  A missing
    value keeps the default and raises nothing, and nothing else in the
    step ever raises [InvalidBaudRate]. *)
Theorem baud_rate_validation (baud options : JsVar) (w : World) :
  baudRate (fst (_jswrap_serial_getUsartInfo baud options w))
    = (if negb (jsvIsUndefined baud)
          && (100 <? jsvGetInteger baud)
          && (jsvGetInteger baud <=? 10000000)
       then jsvGetInteger baud
       else baudRate jshUSARTInitInfo)
  /\ exists errs,
       snd (_jswrap_serial_getUsartInfo baud options w) = addErrors errs w
       /\ (In InvalidBaudRate errs
           <-> jsvIsUndefined baud = false
               /\ ~ 100 < jsvGetInteger baud <= 10000000).
Proof.
  unfold _jswrap_serial_getUsartInfo.
  set (b := jsvGetInteger baud).
  assert (Hopt : forall i w0,
            baudRate (fst (if jsvIsObject options
                           then getUsartInfo_options options i w0
                           else (i, w0))) = baudRate i).
  { intros i w0. destruct (jsvIsObject options); [| done].
    apply getUsartInfo_options_baudRate. }
  assert (Herrs : forall i w0, exists errs,
            snd (if jsvIsObject options
                 then getUsartInfo_options options i w0
                 else (i, w0)) = addErrors errs w0
            /\ ~ In InvalidBaudRate errs).
  { intros i w0. destruct (jsvIsObject options).
    - destruct (getUsartInfo_options_cases options i w0)
        as (errs & E & [-> | [[p ->] | [v ->]]]);
        eexists; (split; [exact E|]); simpl; intuition discriminate.
    - exists []. rewrite addErrors_nil. split; [done | simpl; tauto]. }
  destruct (jsvIsUndefined baud); cbn [negb andb].
  - rewrite Hopt. split; [done|].
    destruct (Herrs jshUSARTInitInfo w) as (errs & E & Hno).
    exists errs. split; [done|]. split; [done | intros [? _]; done].
  - destruct (Z.leb_spec b 100) as [Hlow | Hlow]; cbn [orb].
    + rewrite Hopt.
      replace (100 <? b) with false by (symmetry; apply Z.ltb_ge; lia).
      split; [done|].
      destruct (Herrs jshUSARTInitInfo (jsExceptionHere InvalidBaudRate w))
        as (errs & E & Hno).
      exists (InvalidBaudRate :: errs). rewrite E.
      rewrite exceptionHere_addErrors, addErrors_addErrors.
      split; [done|]. split; [intros _; split; [done | lia] |].
      intros _. by left.
    + replace (100 <? b) with true by (symmetry; apply Z.ltb_lt; lia).
      cbn [andb]. destruct (Z.ltb_spec 10000000 b) as [Hhigh | Hhigh].
      * rewrite Hopt.
        replace (b <=? 10000000) with false
          by (symmetry; apply Z.leb_gt; lia).
        split; [done|].
        destruct (Herrs jshUSARTInitInfo (jsExceptionHere InvalidBaudRate w))
          as (errs & E & Hno).
        exists (InvalidBaudRate :: errs). rewrite E.
        rewrite exceptionHere_addErrors, addErrors_addErrors.
        split; [done|]. split; [intros _; split; [done | lia] |].
        intros _. by left.
      * rewrite Hopt.
        replace (b <=? 10000000) with true
          by (symmetry; apply Z.leb_le; lia).
        split; [done|].
        destruct (Herrs (set_baudRate b jshUSARTInitInfo) w)
          as (errs & E & Hno).
        exists errs. split; [done|]. split; [done|].
        intros [_ Hbad]. lia.
Qed.

(** Whatever the arguments, the byte wide fields of the description stay
    inside [0, 256) when the defaults of [jshUSARTInitInfo] are, and the
    parity never comes from anything but the default or the options. *)
Theorem description_fields_are_bytes (baud options : JsVar) (w : World) :
  0 <= bytesize jshUSARTInitInfo < 256 ->
  0 <= parity jshUSARTInitInfo < 256 ->
  0 <= stopbits jshUSARTInitInfo < 256 ->
  0 <= bytesize (fst (_jswrap_serial_getUsartInfo baud options w)) < 256
  /\ 0 <= parity (fst (_jswrap_serial_getUsartInfo baud options w)) < 256
  /\ 0 <= stopbits (fst (_jswrap_serial_getUsartInfo baud options w)) < 256.
Proof.
  intros Hb Hp Hs.
  assert (Hu : forall x, 0 <= to_uchar x < 256)
    by (intros x; apply Z.mod_pos_bound; lia).
  assert (Hpar : forall v, 0 <= parityOfVar v < 256).
  { intros v. unfold parityOfVar.
    repeat match goal with
           | |- context [if ?c then _ else _] => destruct c
           end; try lia; apply Hu. }
  assert (Hopt : forall i w0,
            0 <= bytesize i < 256 -> 0 <= stopbits i < 256 ->
            0 <= bytesize (fst (getUsartInfo_options options i w0)) < 256
            /\ 0 <= parity (fst (getUsartInfo_options options i w0)) < 256
            /\ 0 <= stopbits (fst (getUsartInfo_options options i w0)) < 256).
  { intros i w0 Hbi Hsi. unfold getUsartInfo_options.
    pose proof (Hpar (jsvObjectGetChild options "parity")).
    pose proof (Hu (jsvGetInteger (jsvObjectGetChild options "bytesize"))).
    pose proof (Hu (jsvGetInteger (jsvObjectGetChild options "stopbits"))).
    repeat match goal with
           | |- context [if ?c then _ else _] => destruct c
           end; simpl; auto. }
  unfold _jswrap_serial_getUsartInfo.
  destruct (negb (jsvIsUndefined baud));
    [destruct ((jsvGetInteger baud <=? 100)
               || (10000000 <? jsvGetInteger baud)) |];
    destruct (jsvIsObject options); simpl; auto; apply Hopt; auto.
Qed.

End ConfigFacts.

(** On the concrete platform the defaults are bytes, so is every
    description; here for a stop bit count of 300, kept as 44. *)
Lemma description_fields_are_bytes_witness :
  0 <= stopbits
         (fst (@_jswrap_serial_getUsartInfo Reference.platform (JsInt 9600)
                 (JsObject [("stopbits", JsInt 300)]) (Reference.world0 0)))
    < 256.
Proof.
  destruct (@description_fields_are_bytes Reference.platform (JsInt 9600)
              (JsObject [("stopbits", JsInt 300)]) (Reference.world0 0))
    as (_ & _ & H).
  - eval_bounds.
  - eval_bounds.
  - eval_bounds.
  - exact H.
Defined.

Section OptionsFacts.
Context `{P : Platform}.

Lemma getUsartInfo_as_options (baud : JsVar) (kvs : list (string * JsVar))
    (w : World) :
  exists i0 w0 errs0,
    _jswrap_serial_getUsartInfo baud (JsObject kvs) w
      = getUsartInfo_options (JsObject kvs) i0 w0
    /\ w0 = addErrors errs0 w
    /\ (errs0 = [] \/ errs0 = [InvalidBaudRate])
    /\ stopbits i0 = stopbits jshUSARTInitInfo
    /\ xOnXOff i0 = xOnXOff jshUSARTInitInfo.
Proof.
  unfold _jswrap_serial_getUsartInfo. cbn [jsvIsObject].
  destruct (negb (jsvIsUndefined baud));
    [destruct ((jsvGetInteger baud <=? 100)
               || (10000000 <? jsvGetInteger baud)) |].
  - exists jshUSARTInitInfo, (jsExceptionHere InvalidBaudRate w),
      [InvalidBaudRate]. repeat split; auto.
  - exists (set_baudRate (jsvGetInteger baud) jshUSARTInitInfo), w, [].
    rewrite addErrors_nil. repeat split; auto.
  - exists jshUSARTInitInfo, w, []. rewrite addErrors_nil.
    repeat split; auto.
Qed.

(** A parity above 2 ends the configuration step at once (line 188): the
    pins of the options are already taken, but the stop bits and the flow
    control are not read, so they keep their defaults and a bad flow
    control value is not reported. *)
Theorem invalid_parity_stops_options (baud : JsVar)
    (kvs : list (string * JsVar)) (w : World) :
  2 < parityOfVar (findChild "parity" kvs) ->
  pinTX (fst (_jswrap_serial_getUsartInfo baud (JsObject kvs) w))
    = jshGetPinFromVar (findChild "tx" kvs)
  /\ stopbits (fst (_jswrap_serial_getUsartInfo baud (JsObject kvs) w))
     = stopbits jshUSARTInitInfo
  /\ xOnXOff (fst (_jswrap_serial_getUsartInfo baud (JsObject kvs) w))
     = xOnXOff jshUSARTInitInfo
  /\ exists errs,
       snd (_jswrap_serial_getUsartInfo baud (JsObject kvs) w)
         = addErrors errs w
       /\ In (InvalidParity (parityOfVar (findChild "parity" kvs))) errs
       /\ forall v, ~ In (InvalidFlowControl v) errs.
Proof.
  intros Hpar.
  destruct (getUsartInfo_as_options baud kvs w)
    as (i0 & w0 & errs0 & E & -> & Herr0 & Hs0 & Hx0).
  rewrite E. unfold getUsartInfo_options. cbn [jsvObjectGetChild].
  set (i1 := if jsvIsInt (findChild "bytesize" kvs) then _ else _).
  assert (Hp : parity (set_parity (parityOfVar (findChild "parity" kvs)) i1)
               = parityOfVar (findChild "parity" kvs)) by reflexivity.
  rewrite Hp.
  replace (2 <? parityOfVar (findChild "parity" kvs)) with true
    by (symmetry; apply Z.ltb_lt; lia).
  assert (Hi1 : pinTX i1 = jshGetPinFromVar (findChild "tx" kvs)
                /\ stopbits i1 = stopbits i0 /\ xOnXOff i1 = xOnXOff i0).
  { subst i1. by destruct (jsvIsInt (findChild "bytesize" kvs)). }
  destruct Hi1 as (Ht & Hs & Hx). cbn [fst snd].
  split; [exact Ht|]. split; [simpl; congruence|].
  split; [simpl; congruence|].
  exists (errs0 ++ [InvalidParity (parityOfVar (findChild "parity" kvs))]).
  split; [by rewrite exceptionHere_addErrors, addErrors_addErrors|].
  split; [apply in_app_iff; right; by left|].
  intros v Hin. apply in_app_iff in Hin as [Hin | [Hin | []]];
    [| discriminate].
  destruct Herr0 as [-> | ->]; simpl in Hin; intuition discriminate.
Qed.

(** With a parity of at most 2 the flow control entry decides
    [xOnXOff]: missing, null or ["none"] gives [false], ["xon"] gives
    [true], and anything else raises [InvalidFlowControl] with that value
    and leaves the default; the stop bits are the entry as an
    [unsigned char] when it is an integer and the default otherwise. *)
Theorem flow_control_forms (baud : JsVar) (kvs : list (string * JsVar))
    (w : World) :
  parityOfVar (findChild "parity" kvs) <= 2 ->
  xOnXOff (fst (_jswrap_serial_getUsartInfo baud (JsObject kvs) w))
    = (if jsvIsUndefined (findChild "flow" kvs)
          || jsvIsNull (findChild "flow" kvs)
          || jsvIsStringEqual (findChild "flow" kvs) "none"
       then false
       else if jsvIsStringEqual (findChild "flow" kvs) "xon" then true
       else xOnXOff jshUSARTInitInfo)
  /\ stopbits (fst (_jswrap_serial_getUsartInfo baud (JsObject kvs) w))
     = (if jsvIsInt (findChild "stopbits" kvs)
        then to_uchar (jsvGetInteger (findChild "stopbits" kvs))
        else stopbits jshUSARTInitInfo)
  /\ exists errs,
       snd (_jswrap_serial_getUsartInfo baud (JsObject kvs) w)
         = addErrors errs w
       /\ forall v,
            In (InvalidFlowControl v) errs
            <-> v = findChild "flow" kvs
                /\ jsvIsUndefined v || jsvIsNull v
                   || jsvIsStringEqual v "none"
                   || jsvIsStringEqual v "xon" = false.
Proof.
  intros Hpar.
  destruct (getUsartInfo_as_options baud kvs w)
    as (i0 & w0 & errs0 & E & -> & Herr0 & Hs0 & Hx0).
  rewrite E. unfold getUsartInfo_options. cbn [jsvObjectGetChild].
  set (i1 := if jsvIsInt (findChild "bytesize" kvs) then _ else _).
  assert (Hp : parity (set_parity (parityOfVar (findChild "parity" kvs)) i1)
               = parityOfVar (findChild "parity" kvs)) by reflexivity.
  rewrite Hp.
  replace (2 <? parityOfVar (findChild "parity" kvs)) with false
    by (symmetry; apply Z.ltb_ge; lia).
  assert (Hi1 : stopbits i1 = stopbits i0 /\ xOnXOff i1 = xOnXOff i0).
  { subst i1. by destruct (jsvIsInt (findChild "bytesize" kvs)). }
  destruct Hi1 as (Hs & Hx).
  assert (Hno0 : forall v, ~ In (InvalidFlowControl v) errs0).
  { intros v Hin. destruct Herr0 as [-> | ->]; simpl in Hin;
      intuition discriminate. }
  set (fv := findChild "flow" kvs).
  destruct (jsvIsInt (findChild "stopbits" kvs));
    destruct (jsvIsUndefined fv || jsvIsNull fv
              || jsvIsStringEqual fv "none") eqn:Hnone;
    try destruct (jsvIsStringEqual fv "xon") eqn:Hxon;
    cbn [fst snd orb];
    (split; [simpl; congruence|]); (split; [simpl; congruence|]);
    first
      [ exists (errs0 ++ [InvalidFlowControl fv]);
        split; [by rewrite exceptionHere_addErrors, addErrors_addErrors|];
        intros v; rewrite in_app_iff; split;
        [ intros [Hin | [Hin | []]]; [by apply Hno0 in Hin|];
          injection Hin as <-; by rewrite Hnone, Hxon
        | intros [-> _]; right; by left ]
      | exists errs0; split; [reflexivity|];
        intros v; split; [intros Hin; by apply Hno0 in Hin|];
        intros [-> Hbad]; rewrite Hnone in Hbad;
        try rewrite Hxon in Hbad; discriminate ].
Qed.

End OptionsFacts.

(** [{tx: 5, parity: 7, stopbits: 2, flow: "bad"}] on the concrete
    platform: pin 5 is taken, the stop bits stay 1 and only the parity is
    reported. *)
Lemma invalid_parity_stops_options_witness :
  pinTX (fst (@_jswrap_serial_getUsartInfo Reference.platform (JsInt 9600)
                (JsObject [("tx", JsInt 5); ("parity", JsInt 7);
                           ("stopbits", JsInt 2); ("flow", JsString "bad")])
                (Reference.world0 0)))
    = 5
  /\ stopbits
       (fst (@_jswrap_serial_getUsartInfo Reference.platform (JsInt 9600)
               (JsObject [("tx", JsInt 5); ("parity", JsInt 7);
                          ("stopbits", JsInt 2); ("flow", JsString "bad")])
               (Reference.world0 0)))
     = 1.
Proof.
  destruct (@invalid_parity_stops_options Reference.platform (JsInt 9600)
              [("tx", JsInt 5); ("parity", JsInt 7); ("stopbits", JsInt 2);
               ("flow", JsString "bad")]
              (Reference.world0 0)) as (Hpin & Hstop & _).
  - eval_bounds.
  - split; [exact Hpin | exact Hstop].
Defined.

(** [{flow: "xon", stopbits: 2}] on the concrete platform. *)
Lemma flow_control_forms_witness :
  xOnXOff
    (fst (@_jswrap_serial_getUsartInfo Reference.platform (JsInt 9600)
            (JsObject [("flow", JsString "xon"); ("stopbits", JsInt 2)])
            (Reference.world0 0)))
    = true.
Proof.
  destruct (@flow_control_forms Reference.platform (JsInt 9600)
              [("flow", JsString "xon"); ("stopbits", JsInt 2)]
              (Reference.world0 0)) as [H _].
  - eval_bounds.
  - exact H.
Defined.

(** ** What [setup] does to the device object and the hardware *)

Section SetupFacts.
Context `{P : Platform}.

Lemma set_baudRate_same (i : JshUSARTInfo) : set_baudRate (baudRate i) i = i.
Proof. by destruct i. Qed.

Lemma getUsartInfo_rate (baud options : JsVar) (w : World) :
  baudRate (fst (_jswrap_serial_getUsartInfo baud options w))
    = (if negb (jsvIsUndefined baud)
          && (100 <? jsvGetInteger baud)
          && (jsvGetInteger baud <=? 10000000)
       then jsvGetInteger baud
       else baudRate jshUSARTInitInfo).
Proof.
  unfold _jswrap_serial_getUsartInfo.
  assert (Hopt : forall i w0,
            baudRate (fst (if jsvIsObject options
                           then getUsartInfo_options options i w0
                           else (i, w0))) = baudRate i).
  { intros i w0. destruct (jsvIsObject options); [| done].
    apply getUsartInfo_options_baudRate. }
  destruct (negb (jsvIsUndefined baud)); cbn [andb]; [| apply Hopt].
  destruct (Z.leb_spec (jsvGetInteger baud) 100);
    destruct (Z.ltb_spec 10000000 (jsvGetInteger baud));
    destruct (Z.ltb_spec 100 (jsvGetInteger baud));
    destruct (Z.leb_spec (jsvGetInteger baud) 10000000);
    cbn [orb andb]; rewrite Hopt; try reflexivity; lia.
Qed.

(** Reading the stored rate back gives the description it came from. *)
Lemma getUsartInfo_stored_rate (baud options : JsVar) (w w' : World) :
  in_int32 (baudRate jshUSARTInitInfo) ->
  fst (_jswrap_serial_getUsartInfo
         (JsInt (baudRate (fst (_jswrap_serial_getUsartInfo baud options w))))
         options w')
    = fst (_jswrap_serial_getUsartInfo baud options w).
Proof.
  intros Hdef.
  pose proof (getUsartInfo_rate baud options w) as Hrate.
  set (r := baudRate (fst (_jswrap_serial_getUsartInfo baud options w)))
    in *.
  unfold _jswrap_serial_getUsartInfo at 1 2.
  cbn [jsvIsUndefined negb jsvGetInteger].
  assert (Hopt : forall i w1 w2,
            fst (if jsvIsObject options
                 then getUsartInfo_options options i w1 else (i, w1))
            = fst (if jsvIsObject options
                   then getUsartInfo_options options i w2 else (i, w2))).
  { intros i w1 w2. destruct (jsvIsObject options); [| done].
    apply getUsartInfo_options_world. }
  destruct (negb (jsvIsUndefined baud)
            && (100 <? jsvGetInteger baud)
            && (jsvGetInteger baud <=? 10000000)) eqn:Hvalid.
  - apply andb_true_iff in Hvalid as [Hvalid Hhigh].
    apply andb_true_iff in Hvalid as [Hdefd Hlow].
    apply Z.ltb_lt in Hlow. apply Z.leb_le in Hhigh.
    rewrite Hdefd.
    assert (Hw : wrap32 r = r)
      by (apply wrap32_small; unfold in_int32; lia).
    rewrite Hw, Hrate.
    replace ((jsvGetInteger baud <=? 100)
             || (10000000 <? jsvGetInteger baud)) with false
      by (symmetry; apply orb_false_iff; split; lia).
    apply Hopt.
  - assert (Hw : wrap32 r = r) by (rewrite Hrate; by apply wrap32_small).
    rewrite Hw.
    assert (Hbase : fst (if negb (jsvIsUndefined baud)
                         then if (jsvGetInteger baud <=? 100)
                                 || (10000000 <? jsvGetInteger baud)
                              then (jshUSARTInitInfo,
                                    jsExceptionHere InvalidBaudRate w)
                              else (set_baudRate (jsvGetInteger baud)
                                                 jshUSARTInitInfo, w)
                         else (jshUSARTInitInfo, w))
                    = jshUSARTInitInfo).
    { destruct (negb (jsvIsUndefined baud)); [| done].
      cbn [andb] in Hvalid.
      destruct (Z.leb_spec (jsvGetInteger baud) 100); [done|].
      destruct (Z.ltb_spec 10000000 (jsvGetInteger baud)); [done|].
      apply andb_false_iff in Hvalid as [Hv | Hv];
        [apply Z.ltb_ge in Hv | apply Z.leb_gt in Hv]; lia. }
    destruct ((r <=? 100) || (10000000 <? r)).
    + destruct (negb (jsvIsUndefined baud));
        [destruct ((jsvGetInteger baud <=? 100)
                   || (10000000 <? jsvGetInteger baud)) |];
        cbn [fst] in Hbase; try rewrite Hbase; apply Hopt.
    + rewrite Hrate, set_baudRate_same.
      destruct (negb (jsvIsUndefined baud));
        [destruct ((jsvGetInteger baud <=? 100)
                   || (10000000 <? jsvGetInteger baud)) |];
        cbn [fst] in Hbase; try rewrite Hbase; apply Hopt.
Qed.

(** The configuration survives on the device object: whatever [setup] was
    given, a later write reads back from the stored rate and options the
    very description [setup] computed (the errors, if any, are raised
    again). *)
Theorem setup_then_read_back (parent : SerialObject) (baud options : JsVar)
    (w w' : World) :
  USART_BAUDRATE_NAME <> DEVICE_OPTIONS_NAME ->
  in_int32 (baudRate jshUSARTInitInfo) ->
  fst (storedConfig (fst (jswrap_serial_setup parent baud options w)) w')
    = fst (_jswrap_serial_getUsartInfo baud options w).
Proof.
  intros Hne Hdef. unfold storedConfig.
  destruct (setup_children parent baud options w Hne) as [Hb Ho].
  rewrite Hb, Ho. by apply getUsartInfo_stored_rate.
Qed.

End SetupFacts.

(** On the concrete platform the port set up with
    [(19200, {tx: 5, stopbits: 2})] reads that description back. *)
Lemma setup_then_read_back_witness :
  fst (@storedConfig Reference.platform
         (fst (@jswrap_serial_setup Reference.platform Reference.freshPort
                 (JsInt 19200)
                 (JsObject [("tx", JsInt 5); ("stopbits", JsInt 2)])
                 (Reference.world0 0)))
         (Reference.world0 7))
    = mkUSARTInfo 19200 255 5 255 8 0 2 false.
Proof.
  rewrite (@setup_then_read_back Reference.platform).
  - reflexivity.
  - discriminate.
  - eval_bounds.
Defined.

Section SetupObjectFacts.
Context `{P : Platform}.

(** Children of the device object after inserts and deletes, compared
    key by key. *)
Ltac same_children :=
  unfold setChild, removeNamedChild; cbn [device children]; f_equal;
  apply map_eq; intros k;
  repeat (rewrite lookup_insert || rewrite lookup_delete);
  repeat case_decide; congruence.

(** [setup] is idempotent on the device object: a second call with the
    same baud rate and options leaves the object as the first call left
    it. *)
Theorem setup_idempotent (parent : SerialObject) (baud options : JsVar)
    (w w' : World) :
  fst (jswrap_serial_setup
         (fst (jswrap_serial_setup parent baud options w)) baud options w')
    = fst (jswrap_serial_setup parent baud options w).
Proof.
  pose proof (getUsartInfo_world baud options w w') as Hi.
  unfold jswrap_serial_setup, jsiGetDeviceFromClass.
  destruct (_jswrap_serial_getUsartInfo baud options w) as [i w1].
  destruct (_jswrap_serial_getUsartInfo baud options w') as [i' w1'].
  cbn [fst] in Hi. subst i'.
  destruct (DEVICE_IS_USART (device parent)) eqn:Hdev;
    destruct (LINUX && jsvIsObject options);
    destruct (negb (jsvIsUndefined options));
    cbn [fst setChild removeNamedChild device]; rewrite Hdev;
    cbn [fst]; same_children.
Qed.

(** [setup] writes the stored rate, the stored options and, on a Linux
    hardware port, ["path"]; every other child of the device object, and
    the device it stands for, is left alone. *)
Theorem setup_keeps_other_children (parent : SerialObject)
    (baud options : JsVar) (w : World) (name : string) :
  name <> USART_BAUDRATE_NAME ->
  name <> DEVICE_OPTIONS_NAME ->
  name <> "path"%string ->
  getChild (fst (jswrap_serial_setup parent baud options w)) name
    = getChild parent name
  /\ device (fst (jswrap_serial_setup parent baud options w))
     = device parent.
Proof.
  intros Hb Ho Hp. unfold jswrap_serial_setup, jsiGetDeviceFromClass.
  destruct (_jswrap_serial_getUsartInfo baud options w) as [i w1].
  destruct (DEVICE_IS_USART (device parent));
    destruct (LINUX && jsvIsObject options);
    destruct (negb (jsvIsUndefined options));
    cbn [fst]; (split; [| reflexivity]);
    rewrite ?getChild_setChild_ne, ?getChild_removeNamedChild_ne by done;
    rewrite ?getChild_setChild_ne, ?getChild_removeNamedChild_ne by done;
    rewrite ?getChild_setChild_ne, ?getChild_removeNamedChild_ne by done;
    reflexivity.
Qed.

(** On a hardware port [setup] hands the description to [jshUSARTSetup]
    exactly once, also when the arguments were rejected with an error; on
    a software port it never does.  It schedules no edge, drives no pin,
    prints and transmits nothing. *)
Theorem setup_programs_hardware_once (parent : SerialObject)
    (baud options : JsVar) (w : World) :
  usartSetups (snd (jswrap_serial_setup parent baud options w))
    = usartSetups w
        ++ (if DEVICE_IS_USART (device parent)
            then [(device parent,
                   fst (_jswrap_serial_getUsartInfo baud options w))]
            else [])
  /\ edges (snd (jswrap_serial_setup parent baud options w)) = edges w
  /\ pinOutputs (snd (jswrap_serial_setup parent baud options w))
     = pinOutputs w
  /\ console (snd (jswrap_serial_setup parent baud options w)) = console w
  /\ transmitted (snd (jswrap_serial_setup parent baud options w))
     = transmitted w.
Proof.
  destruct (getUsartInfo_errors baud options w) as [errs E].
  unfold jswrap_serial_setup, jsiGetDeviceFromClass.
  destruct (_jswrap_serial_getUsartInfo baud options w) as [i w1].
  cbn [snd fst] in *. subst w1.
  destruct (DEVICE_IS_USART (device parent)); cbn [snd];
    repeat split; simpl; by rewrite ?app_nil_r.
Qed.

End SetupObjectFacts.

(** On the concrete platform a child named ["name"] survives [setup]. *)
Lemma setup_keeps_other_children_witness :
  @getChild Reference.platform
     (fst (@jswrap_serial_setup Reference.platform
             (@setChild Reference.platform Reference.freshPort "name"
                        (JsString "gps"))
             (JsInt 4800) JsUndefined (Reference.world0 0)))
     "name"
    = JsString "gps".
Proof.
  destruct (@setup_keeps_other_children Reference.platform
              (@setChild Reference.platform Reference.freshPort "name"
                         (JsString "gps"))
              (JsInt 4800) JsUndefined (Reference.world0 0) "name")
    as [H _].
  - discriminate.
  - discriminate.
  - discriminate.
  - rewrite H. reflexivity.
Defined.

(** ** What a software call leaves behind *)

Section SoftwareCallFacts.
Context `{P : Platform}.

Lemma frameOffsets_length (data : Z) (i : JshUSARTInfo) (pos : Z) :
  0 <= stopbits i < 256 ->
  1 <= Z.of_nat (length (frameOffsets data i pos)) <= totalBitCount i.
Proof.
  intros Hsb. rewrite frameOffsets_run by done.
  pose proof (runOffsets_length_start (S (Z.to_nat (8 + stopbits i)))
                (fst (frameBits data (set_bytesize 8 i))) (-1) pos
                ltac:(lia)).
  unfold totalBitCount. lia.
Qed.

Lemma callOffsets_length (items : list Z) (i : JshUSARTInfo) :
  0 <= stopbits i < 256 ->
  forall pos,
    Z.of_nat (length items)
      <= Z.of_nat (length (callOffsets items i pos))
      <= totalBitCount i * Z.of_nat (length items).
Proof.
  intros Hsb. induction items as [|x rest IH]; intros pos.
  - simpl. lia.
  - simpl callOffsets. rewrite length_app.
    pose proof (frameOffsets_length x i pos Hsb).
    pose proof (IH (pos + totalBitCount i)).
    simpl length. lia.
Qed.

(** A call on a software port with a transmit pin drives that pin high
    exactly once, prints one debug line an item, transmits nothing through
    the hardware and programs no USART; it raises only what reading the
    stored configuration raises; and for [n] items it schedules at least
    [n + 1] and at most [n * (1 + 8 + stopbits) + 1] edges. *)
Theorem software_call_effects (parent : SerialObject) (arg : JsVar)
    (isPrint newLine : bool) (w w1 : World) (i : JshUSARTInfo) :
  DEVICE_IS_USART (device parent) = false ->
  storedConfig parent w = (i, w1) ->
  jshIsPinValid (pinTX i) = true ->
  0 <= stopbits i < 256 ->
  let n := Z.of_nat (length (callItems arg isPrint newLine)) in
  let w' := snd (_jswrap_serial_print parent arg isPrint newLine w) in
  pinOutputs w' = pinOutputs w ++ [(pinTX i, 1)]
  /\ console w'
     = console w
         ++ repeat (mkConsoleLine debugFormat [wrap32 (bitTime (baudRate i))])
                   (length (callItems arg isPrint newLine))
  /\ transmitted w' = transmitted w
  /\ usartSetups w' = usartSetups w
  /\ exceptions w' = exceptions w1
  /\ exists es,
       edges w' = edges w ++ es
       /\ n + 1 <= Z.of_nat (length es) <= n * totalBitCount i + 1
       /\ Forall (fun e => ev_pin e = pinTX i) es.
Proof.
  intros Hdev Hcfg Hpin Hsb n w'.
  destruct (print_software_call parent arg isPrint newLine w w1 i
              Hdev Hcfg Hpin Hsb) as (s' & E & _).
  destruct (getUsartInfo_errors (getChild parent USART_BAUDRATE_NAME)
              (getChild parent DEVICE_OPTIONS_NAME) w) as [errs Ee].
  unfold storedConfig in Hcfg. rewrite Hcfg in Ee. cbn [snd] in Ee.
  subst w'. rewrite E. cbn [snd addLog jshPinOutput pinOutputs console
                            transmitted usartSetups exceptions edges].
  rewrite Ee. cbn [addErrors pinOutputs console transmitted usartSetups
                   exceptions edges].
  repeat split.
  eexists. split; [reflexivity|]. split.
  - rewrite length_app, length_map. simpl length.
    pose proof (callOffsets_length (callItems arg isPrint newLine) i Hsb 0).
    subst n. lia.
  - apply Forall_app. split; [| by repeat constructor].
    apply List.Forall_map. by apply Forall_true.
Qed.

(** A call without items on a software port (an empty string or array)
    still drives the pin high and schedules one edge to logic 1, at
    [now + lead]; it prints nothing. *)
Theorem software_empty_call (parent : SerialObject) (arg : JsVar)
    (isPrint newLine : bool) (w w1 : World) (i : JshUSARTInfo) :
  DEVICE_IS_USART (device parent) = false ->
  storedConfig parent w = (i, w1) ->
  jshIsPinValid (pinTX i) = true ->
  0 <= stopbits i < 256 ->
  callItems arg isPrint newLine = [] ->
  snd (_jswrap_serial_print parent arg isPrint newLine w)
    = jstPinOutputAtTime (wrap64 (sysTime w + leadTime)) (pinTX i) 1
        (jshPinOutput (pinTX i) 1 w1).
Proof.
  intros Hdev Hcfg Hpin Hsb Hnil.
  destruct (print_software_call parent arg isPrint newLine w w1 i
              Hdev Hcfg Hpin Hsb) as (s' & E & Ht & _).
  rewrite Hnil in E, Ht.
  change (Z.of_nat (length (@nil Z))) with 0 in Ht.
  rewrite !Z.mul_0_r, Z.add_0_r in Ht.
  rewrite E, Ht, pinOutputAtTime_addLog. reflexivity.
Qed.

End SoftwareCallFacts.

(** [print("AB")] on the 9600 baud port on pin 5 of the concrete
    platform: one pin write, two console lines, thirteen edges. *)
Lemma software_call_effects_witness :
  pinOutputs (snd (@jswrap_serial_print Reference.platform
                     (Reference.portOnPin5 9600) (JsString "AB")
                     (Reference.world0 0)))
    = [] ++ [(5, 1)].
Proof.
  destruct (@software_call_effects Reference.platform
              (Reference.portOnPin5 9600) (JsString "AB") true false
              (Reference.world0 0) (Reference.world0 0)
              (mkUSARTInfo 9600 255 5 255 8 0 1 false))
    as (H & _).
  - reflexivity.
  - vm_compute. reflexivity.
  - reflexivity.
  - eval_bounds.
  - exact H.
Defined.

(** [write("")] on the same port. *)
Lemma software_empty_call_witness :
  edges (snd (@jswrap_serial_write Reference.platform
                (Reference.portOnPin5 9600) (JsString "")
                (Reference.world0 0)))
    = [mkEdge 1000000 5 1].
Proof.
  unfold jswrap_serial_write.
  rewrite (@software_empty_call Reference.platform
             (Reference.portOnPin5 9600) (JsString "") false false
             (Reference.world0 0) (Reference.world0 0)
             (mkUSARTInfo 9600 255 5 255 8 0 1 false)).
  - reflexivity.
  - reflexivity.
  - vm_compute. reflexivity.
  - reflexivity.
  - eval_bounds.
  - reflexivity.
Defined.

Section PrintlnFacts.
Context `{P : Platform}.

Lemma software_call_edges (parent : SerialObject) (arg : JsVar)
    (isPrint newLine : bool) (w w1 : World) (i : JshUSARTInfo) :
  DEVICE_IS_USART (device parent) = false ->
  storedConfig parent w = (i, w1) ->
  jshIsPinValid (pinTX i) = true ->
  0 <= stopbits i < 256 ->
  edges (snd (_jswrap_serial_print parent arg isPrint newLine w))
    = edges w
        ++ map (edgeAt (sysTime w + leadTime) (bitTime (baudRate i)) (pinTX i))
               (callOffsets (callItems arg isPrint newLine) i 0)
        ++ [mkEdge
              (wrap64 (sysTime w + leadTime
                       + bitTime (baudRate i)
                         * (totalBitCount i
                            * Z.of_nat
                                (length (callItems arg isPrint newLine)))))
              (pinTX i) 1].
Proof.
  intros Hdev Hcfg Hpin Hsb.
  destruct (print_software_call parent arg isPrint newLine w w1 i
              Hdev Hcfg Hpin Hsb) as (s' & E & Ht & _).
  destruct (getUsartInfo_errors (getChild parent USART_BAUDRATE_NAME)
              (getChild parent DEVICE_OPTIONS_NAME) w) as [errs Ee].
  unfold storedConfig in Hcfg. rewrite Hcfg in Ee. cbn [snd] in Ee.
  rewrite E, Ht, Ee. reflexivity.
Qed.

(** On a software port [println] schedules the frames [print] schedules
    for the same text, then the frames of carriage return (13) and line
    feed (10), and only then the one closing edge, two frames later than
    [print] would have put it. *)
Theorem println_appends_cr_lf (parent : SerialObject) (str : JsVar)
    (w w1 : World) (i : JshUSARTInfo) :
  DEVICE_IS_USART (device parent) = false ->
  storedConfig parent w = (i, w1) ->
  jshIsPinValid (pinTX i) = true ->
  0 <= stopbits i < 256 ->
  let t0 := sysTime w + leadTime in
  let len := bitTime (baudRate i) in
  let text := iterateItems (jsvAsString str) in
  let after := totalBitCount i * Z.of_nat (length text) in
  edges (snd (jswrap_serial_print parent str w))
    = edges w
        ++ map (edgeAt t0 len (pinTX i)) (callOffsets text i 0)
        ++ [mkEdge (wrap64 (t0 + len * after)) (pinTX i) 1]
  /\ edges (snd (jswrap_serial_println parent str w))
     = edges w
         ++ map (edgeAt t0 len (pinTX i))
                (callOffsets text i 0
                   ++ frameOffsets 13 i after
                   ++ frameOffsets 10 i (after + totalBitCount i))
         ++ [mkEdge (wrap64 (t0 + len * (after + 2 * totalBitCount i)))
                    (pinTX i) 1].
Proof.
  intros Hdev Hcfg Hpin Hsb t0 len text after.
  unfold jswrap_serial_print, jswrap_serial_println.
  rewrite !(software_call_edges parent str true _ w w1 i) by done.
  unfold callItems. fold text t0 len. split.
  - rewrite app_nil_r. fold after. reflexivity.
  - rewrite callOffsets_app, length_app. cbn [callOffsets length].
    rewrite app_nil_r, Z.add_0_l. fold after.
    replace (totalBitCount i * Z.of_nat (length text + 2))
      with (after + 2 * totalBitCount i) by (subst after; lia).
    reflexivity.
Qed.

End PrintlnFacts.

(** [println("A")] on the 9600 baud port on pin 5 of the concrete
    platform: three frames and one closing edge, thirty bit lengths after
    [now + lead]. *)
Lemma println_appends_cr_lf_witness :
  last (edges (snd (@jswrap_serial_println Reference.platform
                      (Reference.portOnPin5 9600) (JsString "A")
                      (Reference.world0 0))))
    = Some (mkEdge (1000000 + 104 * 30) 5 1).
Proof.
  destruct (@println_appends_cr_lf Reference.platform
              (Reference.portOnPin5 9600) (JsString "A")
              (Reference.world0 0) (Reference.world0 0)
              (mkUSARTInfo 9600 255 5 255 8 0 1 false))
    as [_ H].
  - reflexivity.
  - vm_compute. reflexivity.
  - reflexivity.
  - eval_bounds.
  - rewrite H. vm_compute. reflexivity.
Defined.
